(** * Command console of the Foxoring transmitter (Pi Pico 2)

    A shallow embedding of [cmdArduino.cpp] (the serial command line
    interpreter: line buffer, tokenizer, command table, dispatcher) and of
    [commands.cpp] (the command handlers of the transmitter), followed by
    the properties of the console that were checked against the code.

    Conventions of the embedding

    - a [char] is an [ascii], a C string is a [string] (the characters
      before the terminating NUL), a [char] array is a [list ascii];
    - a pointer into an array is the offset from its start;
    - [int] values are in [Z]; [double] values are primitive binary64
      floats;
    - what the serial port prints is kept as a chronological list of the
      print calls, not as rendered text;
    - a C execution with undefined behaviour (null pointer dereferenced,
      array indexed outside its bounds, ...) is [Stuck] with the fault. *)

From Stdlib Require Import ZArith Floats Uint63 String Ascii List Bool Lia.
From stdpp Require Import base list.
Import ListNotations.

Local Open Scope nat_scope.

(** ** Outcomes of C executions *)

Inductive fault : Type :=
| NullDeref                 (* a null pointer was dereferenced *)
| UninitRead                (* an indeterminate value was read *)
| OutOfBounds (i : Z)       (* an array was accessed at index [i], outside it *)
| IntOverflow               (* signed integer overflow *)
| Unmodelled                (* library behaviour outside the modelled fragment *)
| OutOfFuel.                (* the bound of a loop of the model was used up *)

Inductive outcome (A : Type) : Type :=
| Ok (a : A)
| Stuck (f : fault).

Arguments Ok {A} a.
Arguments Stuck {A} f.

Definition bind {A B : Type} (m : outcome A) (k : A -> outcome B) : outcome B :=
  match m with
  | Ok a => k a
  | Stuck f => Stuck f
  end.

Declare Scope outcome_scope.
Delimit Scope outcome_scope with outcome.
Notation "x <- m ;; k" := (bind m (fun x => k))
  (at level 100, m at next level, right associativity) : outcome_scope.
Local Open Scope outcome_scope.

(** ** Characters, C strings and arrays *)

Definition NUL : ascii := "000"%char.
Definition SP : ascii := " "%char.
Definition CR : ascii := "013"%char.
Definition LF : ascii := "010"%char.
Definition BS : ascii := "008"%char.    (* '\b' *)
Definition DEL : ascii := "127"%char.

(** [arr[i] = v] on an array of [length arr] elements. *)
Definition store {A : Type} (arr : list A) (i : nat) (v : A) : outcome (list A) :=
  if i <? length arr then Ok (<[i := v]> arr) else Stuck (OutOfBounds (Z.of_nat i)).

(** The same with an [int] index. *)
Definition store_at {A : Type} (arr : list A) (i : Z) (v : A) : outcome (list A) :=
  if (i <? 0)%Z then Stuck (OutOfBounds i) else store arr (Z.to_nat i) v.

(** The C string that starts at the head of [l]: the characters before the
    first NUL. *)
Fixpoint c_str (l : list ascii) : string :=
  match l with
  | [] => EmptyString
  | c :: l' => if Ascii.eqb c NUL then EmptyString else String c (c_str l')
  end.

(** [strlen(str)]: the number of characters before the first NUL. *)
Fixpoint strlen (str : string) : nat :=
  match str with
  | EmptyString => 0
  | String c str' => if Ascii.eqb c NUL then 0 else S (strlen str')
  end.

(** [str[i]] for a C string: its characters, then the terminating NUL. *)
Definition char_at (str : string) (i : nat) : ascii :=
  match String.get i str with
  | Some c => c
  | None => NUL
  end.

(** ** The serial port *)

(** [Cmd] prints through its [_ser] member, the handlers through the
    global [Serial]; every print call is logged with its handle. *)
Inductive port : Type := via_ser | via_Serial.

Inductive item : Type :=
| Str (s : string)                 (* print(const char * ) *)
| Chr (c : ascii)                  (* print(char), write(char) *)
| Int (z : Z)                      (* print(int) *)
| Dbl (v : float) (digits : nat)   (* print(double, digits) *)
| Ln.                              (* the line end of println *)

(** ** The signal generator *)

(** Modelled from the spec: the class [synth] behind [rf_synth] is declared
    in [synth.h], which is not part of the sources. The spec describes it as
    paired getters and setters for frequency, amplitude, dither amplitude,
    third-harmonic amplitude and phase, operating mode and maximum buffered
    word count, plus a commit operation ([apply_settings]) and
    [restore_out_pins]. Every mutating call is also logged. *)
Inductive synth_call : Type :=
| set_frequency_call (v : float)
| set_amplitude_call (v : float)
| set_dither_amplitude_call (v : float)
| set_hd3_amplitude_call (v : float)
| set_hd3_phase_call (v : float)
| set_mode_call (m : Z)
| set_max_words_call (n : Z)
| apply_settings_call
| restore_out_pins_call.

Record synth : Type := {
  frequency : float;
  amplitude : float;
  dither_amplitude : float;
  hd3_amplitude : float;
  hd3_phase : float;
  mode : Z;
  max_words_ : Z;
  calls : list synth_call
}.

(** Calls into the Arduino core and the transmitter that only act on the
    hardware. *)
Inductive PinMode : Type := INPUT | OUTPUT.
Inductive PinStatus : Type := LOW | HIGH.

Inductive hw_call : Type :=
| pinMode (pin : Z) (m : PinMode)
| digitalWrite (pin : Z) (v : PinStatus)
| initMorseRate (wpm : Z).

(** ** The globals of the sketch ([transmitter_PiPico.h]) and the ports *)

Record World : Type := {
  out : list (port * item);
  rf_synth : synth;
  key_down : bool;
  morse_rate : Z;
  fox_string : list ascii;
  callsign : list ascii;
  hw : list hw_call
}.

Definition print_to (p : port) (it : item) (w : World) : World :=
  {| out := out w ++ [(p, it)]; rf_synth := rf_synth w; key_down := key_down w;
     morse_rate := morse_rate w; fox_string := fox_string w;
     callsign := callsign w; hw := hw w |}.

Definition println_to (p : port) (it : item) (w : World) : World :=
  print_to p Ln (print_to p it w).

(** ** [cmdArduino.cpp]: the command line interpreter *)

(** A slot of a pointer array such as [argv]: not yet written, a null
    pointer, or a pointer. *)
Inductive slot (A : Type) : Type :=
| Uninit
| Null
| Ptr (a : A).

Arguments Uninit {A}.
Arguments Null {A}.
Arguments Ptr {A} a.

Definition is_ptr {A : Type} (s : slot A) : bool :=
  match s with
  | Ptr _ => true
  | _ => false
  end.

(** [argv[i]] used as a string: the pointer is dereferenced. *)
Definition read_str (argv : list (slot string)) (i : nat) : outcome string :=
  match argv !! i with
  | Some (Ptr s) => Ok s
  | Some Null => Stuck NullDeref
  | Some Uninit => Stuck UninitRead
  | None => Stuck (OutOfBounds (Z.of_nat i))
  end.

(** *** The C library's [strtok]

    [strtok] keeps the position where the next search starts in a static
    variable; here the position is an argument and a result. The array end
    stands for a terminator as well, the buffers handed over are
    NUL-terminated. *)

Definition in_set (delim : string) (c : ascii) : bool :=
  existsb (Ascii.eqb c) (list_ascii_of_string delim).

Fixpoint strspn (l : list ascii) (delim : string) : nat :=
  match l with
  | [] => 0
  | c :: l' =>
      if negb (Ascii.eqb c NUL) && in_set delim c then S (strspn l' delim) else 0
  end.

Fixpoint strcspn (l : list ascii) (delim : string) : nat :=
  match l with
  | [] => 0
  | c :: l' =>
      if Ascii.eqb c NUL || in_set delim c then 0 else S (strcspn l' delim)
  end.

(** One call of [strtok] searching [buf] from offset [s]: the token (an offset
    into [buf], or null), the buffer with the token terminated in place, and
    the offset where the next call continues. *)
Definition strtok (buf : list ascii) (s : nat) (delim : string)
  : slot nat * list ascii * nat :=
  let b := s + strspn (drop s buf) delim in
  if Ascii.eqb (nth b buf NUL) NUL then (Null, buf, b)
  else
    let e := b + strcspn (drop b buf) delim in
    if Ascii.eqb (nth e buf NUL) NUL then (Ptr b, buf, e)
    else (Ptr b, <[e := NUL]> buf, S e).

Module Cmd.

(** A command handler, [void ( *func)(int argc, char **argv)], acting on the
    globals of the sketch. *)
Definition func_t : Type := Z -> list (slot string) -> World -> outcome World.

(** An entry of the command table; the [next] pointers are the list. *)
Record cmd_t : Type := {
  cmd : string;
  func : func_t
}.

(** The statics of [cmdArduino.cpp] and the globals the handlers act on. *)
Record state : Type := {
  msg : list ascii;              (* static uint8_t msg[MAX_MSG_SIZE] *)
  msg_ptr : nat;                 (* static uint8_t *msg_ptr, as msg_ptr - msg *)
  cmd_tbl_list : list cmd_t;
  cmd_tbl : list cmd_t;
  world : World
}.

Definition cmd_prompt : string := "CMD >> ".
Definition cmd_unrecog : string := "CMD: Command not recognized.".

Definition display_prompt (w : World) : World :=
  let w := print_to via_ser Ln w in
  print_to via_ser (Str cmd_prompt) w.

(** The tokenizing loop of [parse],
    [do { argv[++i] = strtok(NULL, " "); } while ((i < 30) && (argv[i] != NULL));]
    Each iteration increments [i] and the loop stops at 30 at the latest, so
    30 units of [fuel] are never used up ([tokenize_loop_cases]). *)
Fixpoint tokenize_loop (fuel : nat) (i : nat) (argv : list (slot nat))
    (buf : list ascii) (save : nat)
  : outcome (nat * list (slot nat) * list ascii) :=
  match fuel with
  | O => Stuck OutOfFuel
  | S fuel' =>
      let i := S i in
      let '(tok, buf, save) := strtok buf save " " in
      argv <- store argv i tok ;;
      if (i <? 30) && is_ptr tok then tokenize_loop fuel' i argv buf save
      else Ok (i, argv, buf)
  end.

(** The first part of [parse]: [argv], a local array of 30 pointers, is
    filled with the tokens of [cmd]; the result is [argc], [argv] and the
    buffer as [strtok] leaves it. *)
Definition tokenize (cmd : list ascii)
  : outcome (nat * list (slot nat) * list ascii) :=
  let i := 0 in
  let argv := replicate 30 Uninit in
  let '(tok, buf, save) := strtok cmd 0 " " in
  argv <- store argv i tok ;;
  tokenize_loop 30 i argv buf save.

(** The token a slot of [argv] points to, read from the buffer. *)
Definition arg_str (buf : list ascii) (s : slot nat) : slot string :=
  match s with
  | Uninit => Uninit
  | Null => Null
  | Ptr p => Ptr (c_str (drop p buf))
  end.

(** The search of the command table in [parse]: [Some] when an entry matched
    and its function was called, [None] when the end of the table was
    reached. *)
Fixpoint parse_table (cmd_entry : list cmd_t) (argc : Z)
    (argv : list (slot string)) (w : World) : outcome (option World) :=
  match cmd_entry with
  | [] => Ok None
  | e :: next =>
      a0 <- read_str argv 0 ;;
      if String.eqb a0 (cmd e) then
        w <- func e argc argv w ;;
        Ok (Some (display_prompt w))
      else parse_table next argc argv w
  end.

Definition parse (tbl : list cmd_t) (cmd : list ascii) (w : World)
  : outcome (list ascii * World) :=
  r <- tokenize cmd ;;
  let '(argc, argv, buf) := r in
  let argv := map (arg_str buf) argv in
  r <- parse_table tbl (Z.of_nat argc) argv w ;;
  match r with
  | Some w => Ok (buf, w)
  | None =>
      a0 <- read_str argv 0 ;;
      let w :=
        if 0 <? strlen a0 then
          let w := print_to via_ser (Str cmd_unrecog) w in
          let w := print_to via_ser (Str " '") w in
          let w := print_to via_ser (Str a0) w in
          println_to via_ser (Str "'") w
        else w in
      Ok (buf, display_prompt w)
  end.

Definition with_world (st : state) (w : World) : state :=
  {| msg := msg st; msg_ptr := msg_ptr st; cmd_tbl_list := cmd_tbl_list st;
     cmd_tbl := cmd_tbl st; world := w |}.

Definition with_msg (st : state) (m : list ascii) (p : nat) : state :=
  {| msg := m; msg_ptr := p; cmd_tbl_list := cmd_tbl_list st;
     cmd_tbl := cmd_tbl st; world := world st |}.

Section Handler.

(** [MAX_MSG_SIZE] is a macro of [cmdArduino.h], which is not part of the
    sources. *)
Variable MAX_MSG_SIZE : nat.

(** [handler] with the character [c] that [_ser->read()] returned. *)
Definition handler (c : ascii) (st : state) : outcome state :=
  if Ascii.eqb c CR then
    m <- store (msg st) (msg_ptr st) NUL ;;
    let w := print_to via_ser (Str (String CR (String LF EmptyString))) (world st) in
    r <- parse (cmd_tbl st) m w ;;
    let '(m, w) := r in
    Ok (with_world (with_msg st m 0) w)
  else if Ascii.eqb c BS || Ascii.eqb c DEL then
    if 0 <? msg_ptr st then
      let w := print_to via_ser (Chr c) (world st) in
      m <- store (msg st) (msg_ptr st) SP ;;
      Ok (with_world (with_msg st m (msg_ptr st - 1)) w)
    else Ok st
  else
    let w := print_to via_ser (Chr c) (world st) in
    m <- store (msg st) (msg_ptr st) c ;;
    let p := S (msg_ptr st) in
    if (Z.of_nat p =? Z.of_nat MAX_MSG_SIZE - 1)%Z then
      let w := println_to via_ser (Str "Command too long. Please reduce command size.") w in
      Ok (with_world (with_msg st m 0) w)
    else Ok (with_world (with_msg st m p) w).

(** [poll] with the characters that are available on the port. *)
Fixpoint poll (avail : list ascii) (st : state) : outcome state :=
  match avail with
  | [] => Ok st
  | c :: avail' =>
      st <- handler c st ;;
      poll avail' st
  end.

End Handler.

Definition add (name : string) (f : func_t) (st : state) : state :=
  let node := {| cmd := name; func := f |} in
  let tbl := node :: cmd_tbl_list st in
  {| msg := msg st; msg_ptr := msg_ptr st; cmd_tbl_list := tbl;
     cmd_tbl := tbl; world := world st |}.

(** [begin], as far as the statics go: the cursor and [cmd_tbl_list] are
    reset, [cmd_tbl] is not. The port is called through the argument [ser]
    even when it is null and [_ser] falls back to [Serial]. *)
Definition begin (ser_is_null : bool) (st : state) : outcome state :=
  let st :=
    {| msg := msg st; msg_ptr := 0; cmd_tbl_list := [];
       cmd_tbl := cmd_tbl st; world := world st |} in
  if ser_is_null then Stuck NullDeref else Ok st.

End Cmd.

(** ** The C library's number conversions *)

Definition isspace (c : ascii) : bool :=
  let n := nat_of_ascii c in
  (n =? 32) || ((9 <=? n) && (n <=? 13)).

Fixpoint skip_space (s : string) : string :=
  match s with
  | String c s' => if isspace c then skip_space s' else s
  | EmptyString => s
  end.

(** An optional sign: whether it was [-], and the rest. *)
Definition read_sign (s : string) : bool * string :=
  match s with
  | String c s' =>
      if Ascii.eqb c "-" then (true, s')
      else if Ascii.eqb c "+" then (false, s')
      else (false, s)
  | EmptyString => (false, s)
  end.

(** The value of a digit or letter as [strtol] reads it. *)
Definition digit_of (c : ascii) : option Z :=
  let n := Z.of_nat (nat_of_ascii c) in
  if ((48 <=? n) && (n <=? 57))%Z then Some (n - 48)%Z
  else if ((97 <=? n) && (n <=? 122))%Z then Some (n - 97 + 10)%Z
  else if ((65 <=? n) && (n <=? 90))%Z then Some (n - 65 + 10)%Z
  else None.

(** The longest run of digits of [base] at the head of [s], as a number. *)
Fixpoint read_digits (base : Z) (s : string) (acc : Z) : Z :=
  match s with
  | String c s' =>
      match digit_of c with
      | Some d => if (d <? base)%Z then read_digits base s' (acc * base + d)%Z else acc
      | None => acc
      end
  | EmptyString => acc
  end.

Definition LONG_MAX : Z := 2147483647.
Definition LONG_MIN : Z := -2147483648.

(** [strtol(str, NULL, base)] where [long] has 32 bits, as on the RP2350:
    white space, an optional sign, digits; 0 when there is no digit, the
    nearest bound when the value does not fit. Bases 0 and 16, which also
    accept a prefix, are left out. *)
Definition strtol (str : string) (base : Z) : outcome Z :=
  if ((2 <=? base) && (base <=? 36) && negb (base =? 16))%Z then
    let '(neg, s) := read_sign (skip_space str) in
    let v := read_digits base s 0 in
    let v := if neg then (- v)%Z else v in
    Ok (Z.max LONG_MIN (Z.min LONG_MAX v))
  else Stuck Unmodelled.


(** Decimal digits at the head of [s]: they are appended to the mantissa
    [m], [n] counts them. *)
Fixpoint read_decimal (s : string) (m : Z) (n : nat) : Z * nat * string :=
  match s with
  | String c s' =>
      let d := (Z.of_nat (nat_of_ascii c) - 48)%Z in
      if ((0 <=? d) && (d <=? 9))%Z then read_decimal s' (m * 10 + d)%Z (S n)
      else (m, n, s)
  | EmptyString => (m, n, s)
  end.

Definition float_of_Z (z : Z) : float := PrimFloat.of_uint63 (Uint63.of_Z z).

(** [strtod(str, NULL)] on the strings that consist of an optional sign and a
    decimal number [ddd], [ddd.ddd], [.ddd] or [ddd.] with a mantissa below
    2^53 and at most 18 digits after the point. Mantissa and power of ten are
    then binary64 numbers and their quotient, rounded once, is the nearest
    binary64 number to the decimal. Other strings (exponents, hexadecimal,
    infinities, leading white space, trailing characters, no digits) are
    outside this fragment. *)
Definition strtod (str : string) : outcome float :=
  let '(neg, s) := read_sign str in
  let '(m, n1, s) := read_decimal s 0 0 in
  let '(m, n2, s) :=
    match s with
    | String c s' => if Ascii.eqb c "." then read_decimal s' m 0 else (m, 0, s)
    | EmptyString => (m, 0, s)
    end in
  match s with
  | EmptyString =>
      if (0 <? n1 + n2) && (m <? 2 ^ 53)%Z && (n2 <=? 18) then
        let v := PrimFloat.div (float_of_Z m) (float_of_Z (10 ^ Z.of_nat n2)) in
        Ok (if neg then PrimFloat.opp v else v)
      else Stuck Unmodelled
  | String _ _ => Stuck Unmodelled
  end.

(** ** The collaborator's operations *)

(** Modelled from the spec: the member functions of [synth] that the
    handlers call, as paired getters and setters and a commit. *)
Definition log_call (c : synth_call) (s : synth) : synth :=
  {| frequency := frequency s; amplitude := amplitude s;
     dither_amplitude := dither_amplitude s; hd3_amplitude := hd3_amplitude s;
     hd3_phase := hd3_phase s; mode := mode s; max_words_ := max_words_ s;
     calls := calls s ++ [c] |}.

Definition set_frequency (v : float) (s : synth) : synth :=
  log_call (set_frequency_call v)
    {| frequency := v; amplitude := amplitude s;
       dither_amplitude := dither_amplitude s; hd3_amplitude := hd3_amplitude s;
       hd3_phase := hd3_phase s; mode := mode s; max_words_ := max_words_ s;
       calls := calls s |}.

Definition set_amplitude (v : float) (s : synth) : synth :=
  log_call (set_amplitude_call v)
    {| frequency := frequency s; amplitude := v;
       dither_amplitude := dither_amplitude s; hd3_amplitude := hd3_amplitude s;
       hd3_phase := hd3_phase s; mode := mode s; max_words_ := max_words_ s;
       calls := calls s |}.

Definition set_dither_amplitude (v : float) (s : synth) : synth :=
  log_call (set_dither_amplitude_call v)
    {| frequency := frequency s; amplitude := amplitude s;
       dither_amplitude := v; hd3_amplitude := hd3_amplitude s;
       hd3_phase := hd3_phase s; mode := mode s; max_words_ := max_words_ s;
       calls := calls s |}.

Definition set_hd3_amplitude (v : float) (s : synth) : synth :=
  log_call (set_hd3_amplitude_call v)
    {| frequency := frequency s; amplitude := amplitude s;
       dither_amplitude := dither_amplitude s; hd3_amplitude := v;
       hd3_phase := hd3_phase s; mode := mode s; max_words_ := max_words_ s;
       calls := calls s |}.

Definition set_hd3_phase (v : float) (s : synth) : synth :=
  log_call (set_hd3_phase_call v)
    {| frequency := frequency s; amplitude := amplitude s;
       dither_amplitude := dither_amplitude s; hd3_amplitude := hd3_amplitude s;
       hd3_phase := v; mode := mode s; max_words_ := max_words_ s;
       calls := calls s |}.

Definition set_mode (m : Z) (s : synth) : synth :=
  log_call (set_mode_call m)
    {| frequency := frequency s; amplitude := amplitude s;
       dither_amplitude := dither_amplitude s; hd3_amplitude := hd3_amplitude s;
       hd3_phase := hd3_phase s; mode := m; max_words_ := max_words_ s;
       calls := calls s |}.

Definition set_max_words (n : Z) (s : synth) : synth :=
  log_call (set_max_words_call n)
    {| frequency := frequency s; amplitude := amplitude s;
       dither_amplitude := dither_amplitude s; hd3_amplitude := hd3_amplitude s;
       hd3_phase := hd3_phase s; mode := mode s; max_words_ := n;
       calls := calls s |}.

Definition apply_settings (s : synth) : synth := log_call apply_settings_call s.
Definition restore_out_pins (s : synth) : synth := log_call restore_out_pins_call s.

Definition get_frequency (s : synth) : float := frequency s.
Definition get_amplitude (s : synth) : float := amplitude s.
Definition get_dither_amplitude (s : synth) : float := dither_amplitude s.
Definition get_hd3_amplitude (s : synth) : float := hd3_amplitude s.
Definition get_hd3_phase (s : synth) : float := hd3_phase s.
Definition get_max_words (s : synth) : Z := max_words_ s.

(** [rf_synth->f(...)] *)
Definition on_synth (f : synth -> synth) (w : World) : World :=
  {| out := out w; rf_synth := f (rf_synth w); key_down := key_down w;
     morse_rate := morse_rate w; fox_string := fox_string w;
     callsign := callsign w; hw := hw w |}.

Definition on_hw (c : hw_call) (w : World) : World :=
  {| out := out w; rf_synth := rf_synth w; key_down := key_down w;
     morse_rate := morse_rate w; fox_string := fox_string w;
     callsign := callsign w; hw := hw w ++ [c] |}.

Definition set_key_down (b : bool) (w : World) : World :=
  {| out := out w; rf_synth := rf_synth w; key_down := b;
     morse_rate := morse_rate w; fox_string := fox_string w;
     callsign := callsign w; hw := hw w |}.

Definition set_morse_rate (r : Z) (w : World) : World :=
  {| out := out w; rf_synth := rf_synth w; key_down := key_down w;
     morse_rate := r; fox_string := fox_string w;
     callsign := callsign w; hw := hw w |}.

Definition set_fox_string (a : list ascii) (w : World) : World :=
  {| out := out w; rf_synth := rf_synth w; key_down := key_down w;
     morse_rate := morse_rate w; fox_string := a;
     callsign := callsign w; hw := hw w |}.

Definition set_callsign (a : list ascii) (w : World) : World :=
  {| out := out w; rf_synth := rf_synth w; key_down := key_down w;
     morse_rate := morse_rate w; fox_string := fox_string w;
     callsign := a; hw := hw w |}.

(** ** [commands.cpp]: the command handlers *)

Definition Serial_print (it : item) (w : World) : World := print_to via_Serial it w.
Definition Serial_println (it : item) (w : World) : World := println_to via_Serial it w.

Definition INT_MAX : Z := 2147483647.
Definition INT_MIN : Z := -2147483648.

(** The result of an [int] operation. *)
Definition int_val (z : Z) : outcome Z :=
  if ((INT_MIN <=? z) && (z <=? INT_MAX))%Z then Ok z else Stuck IntOverflow.

Definition Str2Num (str : string) (base : Z) : outcome Z := strtol str base.
Definition Str2Double (str : string) : outcome float := strtod str.

Definition M_PI : float := 0x1.921fb54442d18p+1%float.

Definition PrintNumArgError (argc : Z) (argv : list (slot string)) (expectedArgc : Z)
    (w : World) : outcome World :=
  expectedArgc <- int_val (expectedArgc - 1) ;;
  let w := Serial_print (Str "#Error: ") w in
  a0 <- read_str argv 0 ;;
  let w := Serial_print (Str a0) w in
  let w := Serial_print (Str " requires ") w in
  let w := Serial_print (Int expectedArgc) w in
  let w := Serial_print (Str " argument") w in
  let w := if negb (expectedArgc =? 1)%Z then Serial_print (Chr "s") w else w in
  let w := Serial_print (Str ". Received ") w in
  received <- int_val (argc - 1) ;;
  let w := Serial_print (Int received) w in
  Ok (Serial_println (Str ".") w).

(** The loop of [FoxCopy] and [CallCopy],
    [for(int ii=0; ii <= len; ii++) { dst[ii] = str[ii]; if(!str[ii]) break; }],
    over the values [ii] takes until the loop condition fails. *)
Fixpoint copy_loop (iis : list nat) (str : string) (dst : list ascii)
  : outcome (list ascii) :=
  match iis with
  | [] => Ok dst
  | ii :: iis' =>
      dst <- store dst ii (char_at str ii) ;;
      if Ascii.eqb (char_at str ii) NUL then Ok dst
      else copy_loop iis' str dst
  end.

Section Commands.

(** Constants and globals of the sketch that are defined outside the
    sources. *)
Variable fox_len : Z.            (* extern const int fox_len: length of fox_string *)
Variable call_len : Z.           (* extern const int call_len: length of callsign *)
Variable First_RF_Pin : Z.
Variable Second_RF_Pin : Z.
Variable max_words : Z.
Variable DATE : string.          (* __DATE__ *)
Variable TIME : string.          (* __TIME__ *)

(** [rf_synth->get_mode_str()], a member of the class [synth]. *)
Variable get_mode_str : synth -> string.

(** [PrintStatus] prints the globals, [CPU_freq_actual], which no source
    declares, and values of further getters of [synth] ([get_n_words],
    [get_n_periods], [get_frequency_exact]), partly after arithmetic in
    single precision. Only [CmdPrintStatus] calls it, and no statement
    below depends on what it prints. *)
Variable PrintStatus : World -> outcome World.

Definition help_text : list string := [
  "******";
  "Compiled: " ++ DATE ++ ", " ++ TIME ++ " ";
  "Commands:";
  "  ? or help - Print this help text";
  "  stat - Print the current status";
  "  keydown val - transmit continuously (val = 1) or normally (val = 0)";
  "  rate wpm - set the morse rate to wpm words per minute";
  "  fox str - set str as fox identifier, e.g. MOS";
  "  fox num - set 0 <= num <= 7 as fox number. 0 gives MO, 1 gives MOE etc";
  "  fox     - print the current fox string";
  "  call str - set str as call sign, e.g. SA5BYZ";
  "  call     - send no call sign";
  "  dither val - set the amount of dither, 0.0 to 2.0";
  "  ampl val - set the amplitude, 0.0 to 2.0";
  "  ampl3 val - set the amplitude of HD3, -0.5 to 0.5";
  "  ph3 val - set the phase of HD3, degrees";
  "  freq val - set the frequency, Hz";
  "  mode val - set the signal generation mode:";
  "             0 - CLKDIV, 1 - comparator, 2 - binary sigma delta,";
  "             3 - trinary sigma delta, 4 - click free binary sigma delta,";
  "             5 - click free trinary sigma delta";
  "  bufsize val - set max number of words in buffer";
  "  default - set all parameters to default values";
  "  off val - turn output off";
  "            0 - turn output on";
  "            1 - one high, one low";
  "            2 - both low";
  "            3 - both high";
  "            4 - both high-Z"
]%string.

Definition CmdPrintHelp (argc : Z) (argv : list (slot string)) (w : World)
  : outcome World :=
  let num_args := 1%Z in
  if negb (argc =? num_args)%Z then PrintNumArgError argc argv num_args w
  else Ok (fold_left (fun w line => Serial_println (Str line) w) help_text w).

Definition CmdPrintStatus (argc : Z) (argv : list (slot string)) (w : World)
  : outcome World :=
  let num_args := 1%Z in
  if negb (argc =? num_args)%Z then PrintNumArgError argc argv num_args w
  else PrintStatus w.

Definition CmdKeyDown (argc : Z) (argv : list (slot string)) (w : World)
  : outcome World :=
  if (argc >? 2)%Z then PrintNumArgError argc argv 2 w
  else if (argc =? 1)%Z then Ok (set_key_down true w)
  else
    a1 <- read_str argv 1 ;;
    if Ascii.eqb (char_at a1 0) "1" then Ok (set_key_down true w)
    else Ok (set_key_down false w).

Definition CmdMorseRate (argc : Z) (argv : list (slot string)) (w : World)
  : outcome World :=
  let num_args := 2%Z in
  if negb (argc =? num_args)%Z then PrintNumArgError argc argv num_args w
  else
    a1 <- read_str argv 1 ;;
    rate <- Str2Num a1 10 ;;
    if ((rate <? 5) || (rate >? 100))%Z then
      Ok (Serial_print (Str "Morse rate must be between 5 and 100") w)
    else
      let w := set_morse_rate rate w in
      Ok (on_hw (initMorseRate (morse_rate w)) w).

Definition FoxCopy (str : string) (w : World) : outcome World :=
  a <- copy_loop (seq 0 (Z.to_nat (fox_len + 1))) str (fox_string w) ;;
  a <- store_at a (fox_len - 1) NUL ;;
  Ok (set_fox_string a w).

Definition CmdFox (argc : Z) (argv : list (slot string)) (w : World)
  : outcome World :=
  if (argc =? 1)%Z then
    let w := Serial_print (Str "Fox string: '") w in
    let w := Serial_print (Str (c_str (fox_string w))) w in
    Ok (Serial_println (Str "'") w)
  else if (argc >? 2)%Z then PrintNumArgError argc argv 2 w
  else
    a1 <- read_str argv 1 ;;
    let c0 := nat_of_ascii (char_at a1 0) in
    if (nat_of_ascii "0" <=? c0) && (c0 <=? nat_of_ascii "7")
       && (strlen a1 =? 1) then
      n <- Str2Num a1 10 ;;
      match n with
      | 0%Z => FoxCopy "MO" w
      | 1%Z => FoxCopy "MOE" w
      | 2%Z => FoxCopy "MOI" w
      | 3%Z => FoxCopy "MOS" w
      | 4%Z => FoxCopy "MOH" w
      | 5%Z => FoxCopy "MO5" w
      | 6%Z => FoxCopy "MON" w
      | 7%Z => FoxCopy "MOD" w
      | _ => FoxCopy "MO" w
      end
    else FoxCopy a1 w.

Definition CallCopy (str : string) (w : World) : outcome World :=
  a <- copy_loop (seq 0 (Z.to_nat (call_len + 1))) str (callsign w) ;;
  a <- store_at a (call_len - 1) NUL ;;
  Ok (set_callsign a w).

Definition CmdCall (argc : Z) (argv : list (slot string)) (w : World)
  : outcome World :=
  if (argc =? 1)%Z then CallCopy "" w
  else if (argc >? 2)%Z then PrintNumArgError argc argv 2 w
  else
    a1 <- read_str argv 1 ;;
    CallCopy a1 w.

Definition CmdDither (argc : Z) (argv : list (slot string)) (w : World)
  : outcome World :=
  if (argc =? 1)%Z then
    Ok (Serial_println (Dbl (get_dither_amplitude (rf_synth w)) 2) w)
  else if (argc >? 2)%Z then PrintNumArgError argc argv 2 w
  else
    a1 <- read_str argv 1 ;;
    v <- Str2Double a1 ;;
    if PrimFloat.leb 0 v && PrimFloat.leb v 3 then
      let w := on_synth (set_dither_amplitude v) w in
      Ok (on_synth apply_settings w)
    else Ok (Serial_println (Str "Invalid dither value") w).

Definition CmdAmpl (argc : Z) (argv : list (slot string)) (w : World)
  : outcome World :=
  if (argc =? 1)%Z then
    Ok (Serial_println (Dbl (get_amplitude (rf_synth w)) 2) w)
  else if (argc >? 2)%Z then PrintNumArgError argc argv 2 w
  else
    a1 <- read_str argv 1 ;;
    v <- Str2Double a1 ;;
    if PrimFloat.leb 0 v && PrimFloat.leb v 2 then
      let w := on_synth (set_amplitude v) w in
      Ok (on_synth apply_settings w)
    else Ok (Serial_println (Str "Invalid amplitude value") w).

Definition CmdAmplHD3 (argc : Z) (argv : list (slot string)) (w : World)
  : outcome World :=
  if (argc =? 1)%Z then
    Ok (Serial_println (Dbl (get_hd3_amplitude (rf_synth w)) 4) w)
  else if (argc >? 2)%Z then PrintNumArgError argc argv 2 w
  else
    a1 <- read_str argv 1 ;;
    v <- Str2Double a1 ;;
    if PrimFloat.leb (-0.5) v && PrimFloat.leb v 0.5 then
      let w := on_synth (set_hd3_amplitude v) w in
      Ok (on_synth apply_settings w)
    else Ok (Serial_println (Str "Invalid HD3 amplitude value") w).

Definition CmdPhaseHD3 (argc : Z) (argv : list (slot string)) (w : World)
  : outcome World :=
  if (argc =? 1)%Z then
    Ok (Serial_println (Dbl (get_hd3_phase (rf_synth w)) 2) w)
  else if (argc >? 2)%Z then PrintNumArgError argc argv 2 w
  else
    a1 <- read_str argv 1 ;;
    v <- Str2Double a1 ;;
    if PrimFloat.leb (-400) v && PrimFloat.leb v 400 then
      let w := on_synth (set_hd3_phase (PrimFloat.div (PrimFloat.mul v M_PI) 180)) w in
      Ok (on_synth apply_settings w)
    else Ok (Serial_println (Str "Invalid HD3 amplitude value") w).

Definition CmdFreq (argc : Z) (argv : list (slot string)) (w : World)
  : outcome World :=
  if (argc =? 1)%Z then
    Ok (Serial_println (Dbl (get_frequency (rf_synth w)) 2) w)
  else if (argc >? 2)%Z then PrintNumArgError argc argv 2 w
  else
    a1 <- read_str argv 1 ;;
    v <- Str2Double a1 ;;
    if PrimFloat.leb 100e3 v && PrimFloat.leb v 20e6 then
      let w := on_synth (set_frequency v) w in
      Ok (on_synth apply_settings w)
    else Ok (Serial_println (Str "Invalid frequency value") w).

Definition CmdMode (argc : Z) (argv : list (slot string)) (w : World)
  : outcome World :=
  if (argc =? 1)%Z then
    Ok (Serial_println (Str (get_mode_str (rf_synth w))) w)
  else if negb (argc =? 2)%Z then PrintNumArgError argc argv 2 w
  else
    a1 <- read_str argv 1 ;;
    m <- Str2Num a1 10 ;;
    if ((m >? 5) || (m <? 0))%Z then
      Ok (Serial_print (Str "Mode must be between 0 and 5") w)
    else
      let w := on_synth (set_mode m) w in
      Ok (on_synth apply_settings w).

Definition CmdBufsize (argc : Z) (argv : list (slot string)) (w : World)
  : outcome World :=
  if (argc =? 1)%Z then
    Ok (Serial_println (Int (get_max_words (rf_synth w))) w)
  else if negb (argc =? 2)%Z then PrintNumArgError argc argv 2 w
  else
    a1 <- read_str argv 1 ;;
    v <- Str2Num a1 10 ;;
    if ((v >? 10000) || (v <? 2))%Z then
      Ok (Serial_print (Str "Bufsize must be between 2 and 10000") w)
    else
      let w := on_synth (set_max_words v) w in
      Ok (on_synth apply_settings w).

Definition CmdDefault (argc : Z) (argv : list (slot string)) (w : World)
  : outcome World :=
  let w := on_synth (set_dither_amplitude 1.0) w in
  let w := on_synth (set_amplitude 1.0) w in
  let w := on_synth (set_frequency 3579900.0) w in
  let w := on_synth (set_mode 5) w in
  let w := on_synth (set_max_words max_words) w in
  Ok (on_synth apply_settings w).

Definition CmdOff (argc : Z) (argv : list (slot string)) (w : World)
  : outcome World :=
  if negb (argc =? 2)%Z then PrintNumArgError argc argv 2 w
  else
    a1 <- read_str argv 1 ;;
    m <- Str2Num a1 10 ;;
    if ((m >? 4) || (m <? 0))%Z then
      Ok (Serial_print (Str "Parameter must be between 0 and 4") w)
    else if (m =? 0)%Z then Ok (on_synth restore_out_pins w)
    else
      let w := on_hw (pinMode First_RF_Pin OUTPUT) w in
      let w := on_hw (pinMode Second_RF_Pin OUTPUT) w in
      if (m =? 1)%Z then
        let w := on_hw (digitalWrite First_RF_Pin HIGH) w in
        Ok (on_hw (digitalWrite Second_RF_Pin LOW) w)
      else if (m =? 2)%Z then
        let w := on_hw (digitalWrite First_RF_Pin LOW) w in
        Ok (on_hw (digitalWrite Second_RF_Pin LOW) w)
      else if (m =? 3)%Z then
        let w := on_hw (digitalWrite First_RF_Pin HIGH) w in
        Ok (on_hw (digitalWrite Second_RF_Pin HIGH) w)
      else if (m =? 4)%Z then
        let w := on_hw (pinMode First_RF_Pin INPUT) w in
        Ok (on_hw (pinMode Second_RF_Pin INPUT) w)
      else Ok w.

(** The commands that can be sent from a terminal. *)
Definition RegisterCommands (st : Cmd.state) : Cmd.state :=
  let st := Cmd.add "?" CmdPrintHelp st in
  let st := Cmd.add "help" CmdPrintHelp st in
  let st := Cmd.add "stat" CmdPrintStatus st in
  let st := Cmd.add "keydown" CmdKeyDown st in
  let st := Cmd.add "rate" CmdMorseRate st in
  let st := Cmd.add "fox" CmdFox st in
  let st := Cmd.add "call" CmdCall st in
  let st := Cmd.add "dither" CmdDither st in
  let st := Cmd.add "ampl" CmdAmpl st in
  let st := Cmd.add "ampl3" CmdAmplHD3 st in
  let st := Cmd.add "ph3" CmdPhaseHD3 st in
  let st := Cmd.add "freq" CmdFreq st in
  let st := Cmd.add "mode" CmdMode st in
  let st := Cmd.add "bufsize" CmdBufsize st in
  let st := Cmd.add "default" CmdDefault st in
  Cmd.add "off" CmdOff st.

End Commands.

(** * Vocabulary of the statements *)

(** Characters that [handler] stores: neither return nor backspace nor
    delete. *)
Definition plain (c : ascii) : Prop := c <> CR /\ c <> BS /\ c <> DEL.

(** The globals after the characters [bs] were echoed. *)
Definition echo (bs : list ascii) (w : World) : World :=
  fold_left (fun w b => print_to via_ser (Chr b) w) bs w.

Definition too_long : string := "Command too long. Please reduce command size.".

(** A command name as it can be typed: not empty, no space, no NUL. *)
Fixpoint token_chars (s : string) : bool :=
  match s with
  | EmptyString => true
  | String c s' => negb (Ascii.eqb c SP) && negb (Ascii.eqb c NUL) && token_chars s'
  end.

Definition is_token (s : string) : bool :=
  match s with
  | EmptyString => false
  | String _ _ => token_chars s
  end.

(** A buffer that holds the line [s], terminated, before [rest]. *)
Definition line_of (s : string) (rest : list ascii) : list ascii :=
  list_ascii_of_string s ++ NUL :: rest.

(** The number of characters of the C string at the head of a buffer. *)
Definition buf_len (l : list ascii) : nat := String.length (c_str l).

(** The offset of the terminator of the string that holds offset [s]. *)
Definition line_end (buf : list ascii) (s : nat) : nat := s + buf_len (drop s buf).

(** The characters of a C string, without the terminator. *)
Fixpoint c_chars (str : string) : list ascii :=
  match str with
  | EmptyString => []
  | String c str' => if Ascii.eqb c NUL then [] else c :: c_chars str'
  end.

(** A line of thirty tokens, 59 characters. *)
Definition thirty_tokens : list ascii :=
  list_ascii_of_string "a a a a a a a a a a a a a a a a a a a a a a a a a a a a a a".

(** What [PrintNumArgError] prints for a command that takes [expected]
    arguments and received [received]. *)
Definition arg_count_message (name : string) (expected received : Z) : list item :=
  [Str "#Error: "; Str name; Str " requires "; Int expected; Str " argument"]
  ++ (if (expected =? 1)%Z then [] else [Chr "s"])
  ++ [Str ". Received "; Int received; Str "."; Ln].

(** The globals after a handler that did nothing but print [items]. *)
Definition only_printed (items : list item) (w : World) : World :=
  {| out := out w ++ map (pair via_Serial) items; rf_synth := rf_synth w;
     key_down := key_down w; morse_rate := morse_rate w;
     fox_string := fox_string w; callsign := callsign w; hw := hw w |}.

(** ** Sample states for the examples *)

Definition sample_synth : synth :=
  {| frequency := 3579900; amplitude := 1; dither_amplitude := 1;
     hd3_amplitude := 0; hd3_phase := 0; mode := 5; max_words_ := 1000;
     calls := [] |}.

Definition sample_world : World :=
  {| out := []; rf_synth := sample_synth; key_down := false; morse_rate := 12;
     fox_string := list_ascii_of_string "MOE" ++ [NUL];
     callsign := list_ascii_of_string "SA5BYZ" ++ [NUL]; hw := [] |}.

(** The interpreter waiting at an empty line, with a buffer of [n]
    characters. *)
Definition idle (n : nat) (tbl : list Cmd.cmd_t) : Cmd.state :=
  {| Cmd.msg := replicate n NUL; Cmd.msg_ptr := 0; Cmd.cmd_tbl_list := tbl;
     Cmd.cmd_tbl := tbl; Cmd.world := sample_world |}.

(** The same after [ab] was typed. *)
Definition typed_ab (n : nat) : Cmd.state :=
  {| Cmd.msg := list_inserts 0 (list_ascii_of_string "ab") (replicate n NUL);
     Cmd.msg_ptr := 2; Cmd.cmd_tbl_list := []; Cmd.cmd_tbl := [];
     Cmd.world := echo (list_ascii_of_string "ab") sample_world |}.

(** A handler that only leaves the mark [s] on the port. *)
Definition mark (s : string) : Cmd.func_t :=
  fun argc argv w => Ok (Serial_print (Str s) w).

(** ** Two sentences of the specification as they are worded *)

(** Backspace: the character before the cursor becomes a space. *)
Definition backspace_blanks_previous (size : nat) (c : ascii) (st : Cmd.state) : Prop :=
  exists st',
    Cmd.handler size c st = Ok st' /\
    out (Cmd.world st') = out (Cmd.world st) ++ [(via_ser, Chr c)] /\
    Cmd.msg st' !! (Cmd.msg_ptr st - 1) = Some SP /\
    Cmd.msg_ptr st' = Cmd.msg_ptr st - 1.

(** Overflow, in the weakest reading: after the characters [bs] and one more
    the cursor is at the buffer start. *)
Definition overflow_resets_after (size : nat) (bs : list ascii) (c : ascii)
    (st : Cmd.state) : Prop :=
  exists st', Cmd.poll size (bs ++ [c]) st = Ok st' /\ Cmd.msg_ptr st' = 0.

(** ** Words of a line, the editor's invariant, calls of the signal generator *)

(** [w :: ws] unless [w] is empty. *)
Definition keep_word (w : string) (ws : list string) : list string :=
  match w with
  | EmptyString => ws
  | String _ _ => w :: ws
  end.

(** One pass over a line: the characters before its first space (or its
    end), and the words after that space. *)
Fixpoint split_line (l : list ascii) : string * list string :=
  match l with
  | [] => (EmptyString, [])
  | c :: l' =>
      if Ascii.eqb c NUL then (EmptyString, [])
      else
        let '(w, ws) := split_line l' in
        if Ascii.eqb c SP then (EmptyString, keep_word w ws) else (String c w, ws)
  end.

(** The words of the C string at the head of [l]: its maximal runs of
    characters other than the space, in order. These are the space-delimited
    strings that the comment in [parse] announces; [tokenize] is compared
    with them below. *)
Definition words (l : list ascii) : list string :=
  let '(w, ws) := split_line l in keep_word w ws.

(** The pointer [t] moved by [n] elements. *)
Definition shift (n : nat) (t : slot nat) : slot nat :=
  match t with
  | Ptr b => Ptr (n + b)
  | Null => Null
  | Uninit => Uninit
  end.

(** The characters before the first space or NUL. *)
Definition run (l : list ascii) : string :=
  string_of_list_ascii (take (strcspn l " ") l).

(** The line buffer has [size] characters and the cursor leaves room for
    the terminator. *)
Definition buffer_ok (size : nat) (st : Cmd.state) : Prop :=
  length (Cmd.msg st) = size /\ Cmd.msg_ptr st <= size - 2.

(** Two states of the globals that differ in what was printed at most. *)
Definition same_globals (w w' : World) : Prop :=
  rf_synth w' = rf_synth w /\ key_down w' = key_down w /\
  morse_rate w' = morse_rate w /\ fox_string w' = fox_string w /\
  callsign w' = callsign w /\ hw w' = hw w.

(** The fox identifiers by number. *)
Definition fox_identifiers : list string :=
  ["MO"; "MOE"; "MOI"; "MOS"; "MOH"; "MO5"; "MON"; "MOD"]%string.

(** The one-character string of the digit [n]. *)
Definition digit_string (n : nat) : string :=
  String (ascii_of_nat (48 + n)) EmptyString.

(** A letter of the alphabet. *)
Definition letter (c : ascii) : bool :=
  let n := nat_of_ascii c in
  ((97 <=? n) && (n <=? 122)) || ((65 <=? n) && (n <=? 90)).








(** * Arrays *)

Lemma store_in {A : Type} (arr : list A) (i : nat) (v : A) :
  i < length arr -> store arr i v = Ok (<[i := v]> arr).
Proof.
  intros H. unfold store. destruct (Nat.ltb_spec i (length arr)); [reflexivity | lia].
Qed.

Lemma store_out {A : Type} (arr : list A) (i : nat) (v : A) :
  length arr <= i -> store arr i v = Stuck (OutOfBounds (Z.of_nat i)).
Proof.
  intros H. unfold store. destruct (Nat.ltb_spec i (length arr)); [lia | reflexivity].
Qed.

(** * The input state machine *)

Lemma plain_eqb (c : ascii) :
  plain c ->
  Ascii.eqb c CR = false /\ Ascii.eqb c BS = false /\ Ascii.eqb c DEL = false.
Proof.
  intros (H1 & H2 & H3). repeat split; apply Ascii.eqb_neq; assumption.
Qed.

Section HandlerFacts.

Variable MAX_MSG_SIZE : nat.

(** One stored character that does not fill the buffer. *)
Lemma handler_plain (c : ascii) (st : Cmd.state) :
  plain c ->
  Cmd.msg_ptr st < length (Cmd.msg st) ->
  S (Cmd.msg_ptr st) <> MAX_MSG_SIZE - 1 ->
  Cmd.handler MAX_MSG_SIZE c st =
    Ok (Cmd.with_world
          (Cmd.with_msg st (<[Cmd.msg_ptr st := c]> (Cmd.msg st)) (S (Cmd.msg_ptr st)))
          (print_to via_ser (Chr c) (Cmd.world st))).
Proof.
  intros Hc Hlt Hne. unfold Cmd.handler.
  destruct (plain_eqb c Hc) as (-> & -> & ->). cbn [orb].
  rewrite (store_in _ _ _ Hlt). cbn [bind].
  destruct (Z.eqb_spec (Z.of_nat (S (Cmd.msg_ptr st))) (Z.of_nat MAX_MSG_SIZE - 1)) as [E | E].
  - exfalso. apply Hne. lia.
  - reflexivity.
Qed.

(** The stored character that fills the buffer. *)
Lemma handler_overflow (c : ascii) (st : Cmd.state) :
  plain c ->
  Cmd.msg_ptr st < length (Cmd.msg st) ->
  S (Cmd.msg_ptr st) = MAX_MSG_SIZE - 1 ->
  Cmd.handler MAX_MSG_SIZE c st =
    Ok (Cmd.with_world
          (Cmd.with_msg st (<[Cmd.msg_ptr st := c]> (Cmd.msg st)) 0)
          (println_to via_ser (Str too_long) (print_to via_ser (Chr c) (Cmd.world st)))).
Proof.
  intros Hc Hlt He. unfold Cmd.handler.
  destruct (plain_eqb c Hc) as (-> & -> & ->). cbn [orb].
  rewrite (store_in _ _ _ Hlt). cbn [bind].
  destruct (Z.eqb_spec (Z.of_nat (S (Cmd.msg_ptr st))) (Z.of_nat MAX_MSG_SIZE - 1)) as [E | E].
  - reflexivity.
  - exfalso. apply E. lia.
Qed.

(** Characters that do not fill the buffer are stored one after the other. *)
Lemma poll_plain (bs : list ascii) : forall st : Cmd.state,
  Forall plain bs ->
  length (Cmd.msg st) = MAX_MSG_SIZE ->
  Cmd.msg_ptr st + length bs < MAX_MSG_SIZE - 1 ->
  Cmd.poll MAX_MSG_SIZE bs st =
    Ok (Cmd.with_world
          (Cmd.with_msg st (list_inserts (Cmd.msg_ptr st) bs (Cmd.msg st))
             (Cmd.msg_ptr st + length bs))
          (echo bs (Cmd.world st))).
Proof.
  induction bs as [| b bs IH]; intros st Hall Hlen Hfit.
  - simpl. rewrite Nat.add_0_r. destruct st; reflexivity.
  - simpl in Hfit. apply Forall_cons in Hall as [Hb Hbs].
    cbn [Cmd.poll]. rewrite handler_plain by (try assumption; lia).
    cbn [bind]. rewrite IH; cbn; try assumption.
    + unfold Cmd.with_world, Cmd.with_msg; cbn.
      rewrite list_insert_inserts_lt by lia.
      do 2 f_equal. lia.
    + rewrite length_insert. assumption.
    + lia.
Qed.

(** Polling a sequence is polling its parts in turn. *)
Lemma poll_app (l1 l2 : list ascii) : forall st : Cmd.state,
  Cmd.poll MAX_MSG_SIZE (l1 ++ l2) st =
    bind (Cmd.poll MAX_MSG_SIZE l1 st) (Cmd.poll MAX_MSG_SIZE l2).
Proof.
  induction l1 as [| c l1 IH]; intros st.
  - reflexivity.
  - cbn [app Cmd.poll].
    destruct (Cmd.handler MAX_MSG_SIZE c st) as [st' | f]; cbn [bind].
    + apply IH.
    + reflexivity.
Qed.

(** C9. In every state whose cursor is at the buffer start, a backspace
    byte or a delete byte (127) is a no-op: [handler] returns the state it
    was given, so the buffer, the cursor, the command table and everything
    printed so far are the same before and after; nothing is echoed. *)
Theorem backspace_at_start_is_noop (c : ascii) (st : Cmd.state) :
  c = BS \/ c = DEL ->
  Cmd.msg_ptr st = 0 ->
  Cmd.handler MAX_MSG_SIZE c st = Ok st.
Proof.
  intros Hc Hp. unfold Cmd.handler. rewrite Hp.
  destruct Hc as [-> | ->]; reflexivity.
Qed.

(** C1, as the code has it. In every state whose cursor is past the buffer
    start and inside the buffer, a backspace or delete byte is echoed, the
    slot AT the cursor is overwritten with a space and the cursor moves back
    by one. The character before the old cursor keeps its value: it is left
    at the new cursor position, outside the line. *)
Theorem backspace_blanks_cursor_slot (c : ascii) (st : Cmd.state) :
  c = BS \/ c = DEL ->
  0 < Cmd.msg_ptr st ->
  Cmd.msg_ptr st < length (Cmd.msg st) ->
  Cmd.handler MAX_MSG_SIZE c st =
    Ok (Cmd.with_world
          (Cmd.with_msg st (<[Cmd.msg_ptr st := SP]> (Cmd.msg st)) (Cmd.msg_ptr st - 1))
          (print_to via_ser (Chr c) (Cmd.world st)))
  /\ <[Cmd.msg_ptr st := SP]> (Cmd.msg st) !! (Cmd.msg_ptr st - 1)
     = Cmd.msg st !! (Cmd.msg_ptr st - 1).
Proof.
  intros Hc Hpos Hlt. split.
  - unfold Cmd.handler.
    assert (Hcr : Ascii.eqb c CR = false) by (destruct Hc as [-> | ->]; reflexivity).
    assert (Hbs : Ascii.eqb c BS || Ascii.eqb c DEL = true)
      by (destruct Hc as [-> | ->]; reflexivity).
    rewrite Hcr, Hbs.
    destruct (Nat.ltb_spec 0 (Cmd.msg_ptr st)); [| lia].
    rewrite (store_in _ _ _ Hlt). reflexivity.
  - apply list_lookup_insert_ne. lia.
Qed.

(** C2, as the code has it. From an empty buffer of [MAX_MSG_SIZE]
    characters, [MAX_MSG_SIZE - 2] stored characters are echoed and kept;
    one more stored character is echoed, the notice that the command is too
    long is printed and the cursor is back at the buffer start. Nothing else
    is printed and no other global changes: the line is not dispatched. *)
Theorem overflow_after_capacity_minus_two (bs : list ascii) (c : ascii)
    (st : Cmd.state) :
  2 <= MAX_MSG_SIZE ->
  length (Cmd.msg st) = MAX_MSG_SIZE ->
  Cmd.msg_ptr st = 0 ->
  Forall plain bs ->
  plain c ->
  length bs = MAX_MSG_SIZE - 2 ->
  let st1 :=
    Cmd.with_world
      (Cmd.with_msg st (list_inserts 0 bs (Cmd.msg st)) (MAX_MSG_SIZE - 2))
      (echo bs (Cmd.world st)) in
  let st2 :=
    Cmd.with_world
      (Cmd.with_msg st1 (<[MAX_MSG_SIZE - 2 := c]> (Cmd.msg st1)) 0)
      (println_to via_ser (Str too_long) (print_to via_ser (Chr c) (Cmd.world st1))) in
  Cmd.poll MAX_MSG_SIZE bs st = Ok st1 /\
  Cmd.handler MAX_MSG_SIZE c st1 = Ok st2 /\
  Cmd.poll MAX_MSG_SIZE (bs ++ [c]) st = Ok st2.
Proof.
  intros Hsize Hlen Hp Hbs Hc Hn st1 st2.
  assert (H1 : Cmd.poll MAX_MSG_SIZE bs st = Ok st1).
  { rewrite poll_plain by (try assumption; lia).
    subst st1. rewrite Hp, Hn. reflexivity. }
  assert (H2 : Cmd.handler MAX_MSG_SIZE c st1 = Ok st2).
  { rewrite handler_overflow; try assumption.
    - reflexivity.
    - subst st1. cbn. rewrite length_inserts. lia.
    - subst st1. cbn. lia. }
  split; [exact H1 | split; [exact H2 |]].
  rewrite poll_app, H1. cbn [bind Cmd.poll]. rewrite H2. reflexivity.
Qed.

End HandlerFacts.

(** C9 at a buffer of 60 characters. *)
Lemma backspace_at_start_is_noop_witness :
  (BS = BS \/ BS = DEL) /\ Cmd.msg_ptr (idle 60 []) = 0 /\
  Cmd.handler 60 BS (idle 60 []) = Ok (idle 60 []).
Proof.
  assert (H1 : BS = BS \/ BS = DEL) by (left; reflexivity).
  assert (H2 : Cmd.msg_ptr (idle 60 []) = 0) by reflexivity.
  exact (conj H1 (conj H2 (backspace_at_start_is_noop 60 BS (idle 60 []) H1 H2))).
Defined.

(** C1 after [ab] was typed: the delete byte leaves [b] in slot 1. *)
Lemma backspace_blanks_cursor_slot_witness :
  (DEL = BS \/ DEL = DEL) /\ 0 < Cmd.msg_ptr (typed_ab 60) /\
  Cmd.msg_ptr (typed_ab 60) < length (Cmd.msg (typed_ab 60)) /\
  (Cmd.handler 60 DEL (typed_ab 60) =
     Ok (Cmd.with_world
           (Cmd.with_msg (typed_ab 60) (<[2 := SP]> (Cmd.msg (typed_ab 60))) 1)
           (print_to via_ser (Chr DEL) (Cmd.world (typed_ab 60)))) /\
   <[2 := SP]> (Cmd.msg (typed_ab 60)) !! 1 = Cmd.msg (typed_ab 60) !! 1).
Proof.
  assert (H1 : DEL = BS \/ DEL = DEL) by (right; reflexivity).
  assert (H2 : 0 < Cmd.msg_ptr (typed_ab 60)) by (cbn; lia).
  assert (H3 : Cmd.msg_ptr (typed_ab 60) < length (Cmd.msg (typed_ab 60)))
    by (vm_compute; lia).
  exact (conj H1 (conj H2 (conj H3
           (backspace_blanks_cursor_slot 60 DEL (typed_ab 60) H1 H2 H3)))).
Defined.

(** C1 as worded fails after [ab] was typed: the backspace leaves [b]
    before the old cursor, not a space. *)
Lemma backspace_keeps_previous_char :
  0 < Cmd.msg_ptr (typed_ab 60) /\ ~ backspace_blanks_previous 60 BS (typed_ab 60).
Proof.
  split; [cbn; lia |].
  intros (st' & Hrun & _ & Hprev & _).
  vm_compute in Hrun. injection Hrun as <-.
  vm_compute in Hprev. discriminate Hprev.
Qed.

(** C2 at a buffer of 5 characters: the fourth character overflows. *)
Lemma overflow_after_capacity_minus_two_witness :
  2 <= 5 /\ length (Cmd.msg (idle 5 [])) = 5 /\ Cmd.msg_ptr (idle 5 []) = 0 /\
  Cmd.poll 5 (list_ascii_of_string "abcd") (idle 5 []) =
    Ok {| Cmd.msg := list_ascii_of_string "abcd" ++ [NUL]; Cmd.msg_ptr := 0;
          Cmd.cmd_tbl_list := []; Cmd.cmd_tbl := [];
          Cmd.world :=
            println_to via_ser (Str too_long)
              (echo (list_ascii_of_string "abcd") sample_world) |}.
Proof.
  assert (H1 : 2 <= 5) by lia.
  assert (H2 : length (Cmd.msg (idle 5 [])) = 5) by reflexivity.
  assert (H3 : Cmd.msg_ptr (idle 5 []) = 0) by reflexivity.
  assert (H4 : Forall plain (list_ascii_of_string "abc")).
  { repeat constructor; discriminate. }
  assert (H5 : plain "d"%char) by (repeat split; discriminate).
  assert (H6 : length (list_ascii_of_string "abc") = 5 - 2) by reflexivity.
  refine (conj H1 (conj H2 (conj H3 _))).
  exact (proj2 (proj2 (overflow_after_capacity_minus_two 5 (list_ascii_of_string "abc")
                         "d"%char (idle 5 []) H1 H2 H3 H4 H5 H6))).
Defined.

(** C2 as worded fails at a buffer of 60 characters: after 59 characters
    and one more the cursor is at 1, because the 59th character already
    overflowed. *)
Lemma overflow_one_character_early :
  length (repeat "a"%char 59) = 60 - 1 /\
  ~ overflow_resets_after 60 (repeat "a"%char 59) "a"%char (idle 60 []).
Proof.
  split; [reflexivity |].
  intros (st' & Hrun & Hp).
  vm_compute in Hrun. injection Hrun as <-.
  discriminate Hp.
Qed.
(** * The tokenizer *)

(** The loop stops by itself, and the only fault it can run into is the
    write to [argv[30]]. *)
Lemma tokenize_loop_cases (fuel : nat) :
  forall (i : nat) (argv : list (slot nat)) (buf : list ascii) (save : nat),
    length argv = 30 ->
    30 <= i + fuel ->
    i < 30 ->
    Cmd.tokenize_loop fuel i argv buf save = Stuck (OutOfBounds 30) \/
    exists argc argv' buf',
      Cmd.tokenize_loop fuel i argv buf save = Ok (argc, argv', buf') /\
      i < argc <= 29 /\ length argv' = 30.
Proof.
  induction fuel as [| fuel IH]; intros i argv buf save Hlen Hfuel Hi; [lia |].
  cbn [Cmd.tokenize_loop].
  destruct (strtok buf save " ") as [[tok buf'] save'].
  destruct (Nat.eq_dec (S i) 30) as [E | E].
  - left. rewrite store_out by lia. rewrite E. reflexivity.
  - rewrite store_in by lia. cbn [bind].
    destruct (Nat.ltb_spec (S i) 30) as [Hlt | Hge]; [| lia].
    destruct (is_ptr tok); cbn [andb].
    + destruct (IH (S i) (<[S i := tok]> argv) buf' save') as [H | (argc & argv' & b & H & Hb & Hl)];
        try (rewrite ?length_insert; lia).
      * left. exact H.
      * right. exists argc, argv', b. repeat split; try assumption; lia.
    + right. exists (S i), (<[S i := tok]> argv), buf'.
      rewrite length_insert. repeat split; try assumption; lia.
Qed.

Lemma tokenize_cases (cmd : list ascii) :
  Cmd.tokenize cmd = Stuck (OutOfBounds 30) \/
  exists argc argv buf,
    Cmd.tokenize cmd = Ok (argc, argv, buf) /\ 1 <= argc <= 29 /\ length argv = 30.
Proof.
  unfold Cmd.tokenize.
  destruct (strtok cmd 0 " ") as [[tok buf] save].
  rewrite store_in by (rewrite length_replicate; lia). cbn [bind].
  destruct (tokenize_loop_cases 30 0 (<[0 := tok]> (replicate 30 Uninit)) buf save)
    as [H | (argc & argv' & b & H & Hb & Hl)];
    try (rewrite ?length_insert, ?length_replicate; lia).
  - left. exact H.
  - right. exists argc, argv', b. repeat split; try assumption; lia.
Qed.

Lemma buf_len_drop (l : list ascii) : forall k : nat,
  k <= buf_len l -> buf_len (drop k l) = buf_len l - k.
Proof.
  unfold buf_len. induction l as [| c l IH]; intros k Hk.
  - rewrite drop_nil. cbn in *. lia.
  - destruct k as [| k]; [cbn; lia |].
    cbn [c_str] in Hk |- *. destruct (Ascii.eqb c NUL); cbn in Hk; [lia |].
    cbn [drop String.length]. rewrite IH by lia. lia.
Qed.

Lemma nth_buf_len (l : list ascii) : nth (buf_len l) l NUL = NUL.
Proof.
  unfold buf_len. induction l as [| c l IH]; [reflexivity |].
  cbn [c_str]. destruct (Ascii.eqb_spec c NUL) as [E | E]; cbn; [exact E | exact IH].
Qed.

Lemma strspn_le (l : list ascii) (d : string) : strspn l d <= buf_len l.
Proof.
  unfold buf_len. induction l as [| c l IH]; [cbn; lia |].
  cbn [strspn c_str]. destruct (Ascii.eqb c NUL); cbn; [lia |].
  destruct (in_set d c); cbn; lia.
Qed.

Lemma strcspn_le (l : list ascii) (d : string) : strcspn l d <= buf_len l.
Proof.
  unfold buf_len. induction l as [| c l IH]; [cbn; lia |].
  cbn [strcspn c_str]. destruct (Ascii.eqb c NUL); cbn; [lia |].
  destruct (in_set d c); cbn; lia.
Qed.

(** After the leading delimiters comes the terminator or a character that
    is no delimiter. *)
Lemma strspn_stops (l : list ascii) (d : string) :
  nth (strspn l d) l NUL <> NUL -> in_set d (nth (strspn l d) l NUL) = false.
Proof.
  induction l as [| c l IH]; [cbn; congruence |].
  cbn [strspn]. destruct (Ascii.eqb_spec c NUL) as [E | E]; cbn [negb andb].
  - cbn. congruence.
  - destruct (in_set d c) eqn:Hd; cbn [nth]; [exact IH | intros _; exact Hd].
Qed.

Lemma strspn_at_end (l : list ascii) (d : string) :
  nth 0 l NUL = NUL -> strspn l d = 0.
Proof.
  destruct l as [| c l]; [reflexivity |].
  cbn [nth strspn]. intros ->. reflexivity.
Qed.

Lemma strcspn_pos (l : list ascii) (d : string) :
  nth 0 l NUL <> NUL -> in_set d (nth 0 l NUL) = false -> 1 <= strcspn l d.
Proof.
  destruct l as [| c l]; cbn [nth strcspn]; [congruence |].
  intros Hn Hd. apply Ascii.eqb_neq in Hn. rewrite Hn, Hd. cbn. lia.
Qed.

(** What one call of [strtok] does to the search position. *)
Lemma strtok_advance (buf : list ascii) (s : nat) (d : string)
    (tok : slot nat) (buf' : list ascii) (s' : nat) :
  strtok buf s d = (tok, buf', s') ->
  line_end buf' s' <= line_end buf s
  /\ (tok = Null -> nth s' buf' NUL = NUL)
  /\ (is_ptr tok = true -> nth s buf NUL <> NUL)
  /\ (is_ptr tok = true -> nth s' buf' NUL <> NUL -> s + 2 <= s').
Proof.
  unfold strtok, line_end.
  set (r := drop s buf). set (n1 := strspn r d).
  assert (Hn1 : n1 <= buf_len r) by apply strspn_le.
  assert (Hb : nth (s + n1) buf NUL = nth n1 r NUL) by (symmetry; apply nth_skipn).
  assert (Hr1 : drop (s + n1) buf = drop n1 r) by (unfold r; now rewrite drop_drop).
  rewrite Hb, Hr1.
  destruct (Ascii.eqb_spec (nth n1 r NUL) NUL) as [E | E].
  - (* no token *)
    intros [= <- <- <-]. rewrite Hr1, Hb, (buf_len_drop r n1 Hn1).
    split; [lia | split; [intros _; exact E | split; discriminate]].
  - set (r1 := drop n1 r). set (n2 := strcspn r1 d).
    assert (Hn2 : n2 <= buf_len r1) by apply strcspn_le.
    assert (Hlen1 : buf_len r1 = buf_len r - n1) by (apply buf_len_drop; exact Hn1).
    assert (Hhd : nth 0 r1 NUL = nth n1 r NUL).
    { unfold r1. rewrite nth_skipn. f_equal. lia. }
    assert (Hpos : 1 <= n2).
    { apply strcspn_pos; rewrite Hhd; [exact E | apply strspn_stops; exact E]. }
    assert (He : nth (s + n1 + n2) buf NUL = nth n2 r1 NUL).
    { unfold r1, r. rewrite !nth_skipn. f_equal. lia. }
    assert (Hs : nth s buf NUL <> NUL).
    { intros Hs. apply E.
      assert (H0 : nth 0 r NUL = NUL) by (unfold r; rewrite nth_skipn, Nat.add_0_r; exact Hs).
      unfold n1. rewrite (strspn_at_end r d H0). exact H0. }
    rewrite He.
    destruct (Ascii.eqb_spec (nth n2 r1 NUL) NUL) as [E2 | E2].
    + (* the token ends the line *)
      intros [= <- <- <-].
      assert (Hr2 : drop (s + n1 + n2) buf = drop n2 r1).
      { unfold r1, r. rewrite !drop_drop. f_equal. lia. }
      rewrite Hr2, He, (buf_len_drop r1 n2 Hn2).
      split; [lia | split; [discriminate | split; [intros _; exact Hs |]]].
      intros _ Hne. contradiction.
    + (* the token is followed by a delimiter *)
      intros [= <- <- <-].
      assert (Hlt : n2 < buf_len r1).
      { destruct (Nat.eq_dec n2 (buf_len r1)) as [Heq | Hneq]; [| lia].
        exfalso. apply E2. rewrite Heq. apply nth_buf_len. }
      assert (Hr2 : drop (S (s + n1 + n2)) (<[s + n1 + n2 := NUL]> buf) = drop (S n2) r1).
      { rewrite drop_insert_lt by lia. unfold r1, r. rewrite !drop_drop. f_equal. lia. }
      rewrite Hr2, (buf_len_drop r1 (S n2)) by lia.
      split; [lia | split; [discriminate | split; [intros _; exact Hs |]]].
      intros _ _. lia.
Qed.

(** On a line of at most 58 characters the loop never reaches slot 30:
    token [i] starts at offset [2 * i] or later. *)
Lemma tokenize_loop_short (fuel : nat) :
  forall (i : nat) (argv : list (slot nat)) (buf : list ascii) (save : nat),
    length argv = 30 ->
    30 <= i + fuel ->
    i <= 28 ->
    line_end buf save <= 58 ->
    (nth save buf NUL <> NUL -> 2 * i + 2 <= save) ->
    exists argc argv' buf',
      Cmd.tokenize_loop fuel i argv buf save = Ok (argc, argv', buf') /\ argc <= 29.
Proof.
  induction fuel as [| fuel IH]; intros i argv buf save Hlen Hfuel Hi Hend Hsave; [lia |].
  cbn [Cmd.tokenize_loop].
  destruct (strtok buf save " ") as [[tok buf'] save'] eqn:Htok.
  destruct (strtok_advance _ _ _ _ _ _ Htok) as (Hle & Hnull & Hptr & Hadv).
  rewrite store_in by lia. cbn [bind].
  destruct (Nat.ltb_spec (S i) 30) as [Hlt | Hge]; [| lia].
  destruct (is_ptr tok) eqn:Hp; cbn [andb].
  - specialize (Hptr eq_refl). specialize (Hadv eq_refl). specialize (Hsave Hptr).
    assert (Hin : save < line_end buf save).
    { unfold line_end. destruct (Nat.eq_dec (buf_len (drop save buf)) 0) as [H0 | H0]; [| lia].
      exfalso. apply Hptr. pose proof (nth_buf_len (drop save buf)) as Hn.
      rewrite H0, nth_skipn, Nat.add_0_r in Hn. exact Hn. }
    apply IH; try lia.
    + rewrite length_insert. exact Hlen.
    + intros Hne. specialize (Hadv Hne). lia.
  - exists (S i), (<[S i := tok]> argv), buf'. split; [reflexivity | lia].
Qed.

(** A line of at most 58 characters is tokenized without a fault. *)
Lemma tokenize_short_line (cmd : list ascii) :
  String.length (c_str cmd) <= 58 ->
  exists argc argv buf,
    Cmd.tokenize cmd = Ok (argc, argv, buf) /\ argc <= 29.
Proof.
  intros Hshort. unfold Cmd.tokenize.
  destruct (strtok cmd 0 " ") as [[tok buf] save] eqn:Htok.
  destruct (strtok_advance _ _ _ _ _ _ Htok) as (Hle & Hnull & Hptr & Hadv).
  rewrite store_in by (rewrite length_replicate; lia). cbn [bind].
  apply tokenize_loop_short; try lia.
  - rewrite length_insert, length_replicate. reflexivity.
  - assert (H0 : line_end cmd 0 = String.length (c_str cmd))
      by (unfold line_end, buf_len; rewrite drop_0; reflexivity).
    lia.
  - intros Hne. destruct tok as [| | b]; cbn in Hadv.
    + exfalso. unfold strtok in Htok.
      destruct (Ascii.eqb _ NUL); [discriminate |].
      destruct (Ascii.eqb _ NUL); discriminate.
    + exfalso. apply Hne, Hnull. reflexivity.
    + specialize (Hadv eq_refl Hne). lia.
Qed.

(** The same for the line that [handler] hands over at a return: with a
    cursor at 58 or below the line has at most 58 characters. *)
Lemma buf_len_terminated (l : list ascii) : forall p : nat,
  p < length l -> buf_len (<[p := NUL]> l) <= p.
Proof.
  unfold buf_len. induction l as [| c l IH]; intros p Hp; [cbn in Hp; lia |].
  destruct p as [| p]; [cbn; lia |].
  change (<[S p := NUL]> (c :: l)) with (c :: <[p := NUL]> l).
  cbn [c_str]. destruct (Ascii.eqb c NUL); cbn [String.length]; [lia |].
  cbn [length] in Hp. specialize (IH p). lia.
Qed.

Example tokenize_freq :
  Cmd.tokenize (line_of "freq 14000000" []) =
    Ok (2, Ptr 0 :: Ptr 5 :: Null :: replicate 27 Uninit,
        line_of "freq" (line_of "14000000" [])).
Proof. reflexivity. Qed.

(** C3, at the empty line. [strtok] finds no token in an empty line and
    returns a null pointer: [argv[0]] is null, not an empty string, and
    [argc] is 1. [parse] then hands the null pointer to [strcmp] (when the
    table has an entry) and to [strlen]; whatever the table, the execution
    is stuck at the dereference instead of showing the prompt. *)
Theorem empty_line_token_is_null (tbl : list Cmd.cmd_t) (rest : list ascii) (w : World) :
  Cmd.tokenize (NUL :: rest) =
    Ok (1, Null :: Null :: replicate 28 Uninit, NUL :: rest)
  /\ Cmd.parse tbl (NUL :: rest) w = Stuck NullDeref.
Proof.
  assert (Htok : Cmd.tokenize (NUL :: rest) =
                 Ok (1, Null :: Null :: replicate 28 Uninit, NUL :: rest))
    by reflexivity.
  split; [exact Htok |].
  unfold Cmd.parse. rewrite Htok. cbn [bind].
  destruct tbl as [| e tbl]; reflexivity.
Qed.

(** C4, at a line of thirty tokens. After the 30th token is stored in
    [argv[29]] the loop condition still holds, and the next [strtok] result
    is written to [argv[30]], outside the array of 30 pointers. *)
Theorem thirty_tokens_overrun_argv :
  length thirty_tokens = 59 /\
  Cmd.tokenize (thirty_tokens ++ [NUL]) = Stuck (OutOfBounds 30) /\
  forall (tbl : list Cmd.cmd_t) (w : World),
    Cmd.parse tbl (thirty_tokens ++ [NUL]) w = Stuck (OutOfBounds 30).
Proof.
  assert (H : Cmd.tokenize (thirty_tokens ++ [NUL]) = Stuck (OutOfBounds 30))
    by (vm_compute; reflexivity).
  split; [reflexivity | split; [exact H |]].
  intros tbl w. unfold Cmd.parse. rewrite H. reflexivity.
Qed.

(** The empty line as it arrives: a return at the buffer start. *)
Lemma return_on_empty_line (size : nat) (c : ascii) (rest : list ascii)
    (tbl_list tbl : list Cmd.cmd_t) (w : World) :
  Cmd.handler size CR
    {| Cmd.msg := c :: rest; Cmd.msg_ptr := 0; Cmd.cmd_tbl_list := tbl_list;
       Cmd.cmd_tbl := tbl; Cmd.world := w |} = Stuck NullDeref.
Proof.
  unfold Cmd.handler. cbn [Ascii.eqb CR Bool.eqb Cmd.msg Cmd.msg_ptr Cmd.cmd_tbl Cmd.world].
  cbn [store length Nat.ltb Nat.leb bind]. 
  change (<[0 := NUL]> (c :: rest)) with (NUL :: rest).
  unfold Cmd.parse.
  change (Cmd.tokenize (NUL :: rest))
    with (Ok (1, Null (A := nat) :: Null :: replicate 28 Uninit, NUL :: rest)).
  cbn [bind]. destruct tbl as [| e tbl]; reflexivity.
Qed.

(** A message buffer of 61 characters lets the line of thirty tokens
    through to [parse]. *)
Lemma thirty_tokens_from_serial (tbl : list Cmd.cmd_t) :
  Cmd.poll 61 (thirty_tokens ++ [CR]) (idle 61 tbl) = Stuck (OutOfBounds 30).
Proof. vm_compute. reflexivity. Qed.

(** With a cursor at 58 or below, as a message buffer of 60 characters
    keeps it, the line is tokenized without a fault. *)
Lemma tokenize_at_return (st : Cmd.state) :
  Cmd.msg_ptr st <= 58 ->
  Cmd.msg_ptr st < length (Cmd.msg st) ->
  exists argc argv buf,
    Cmd.tokenize (<[Cmd.msg_ptr st := NUL]> (Cmd.msg st)) = Ok (argc, argv, buf)
    /\ argc <= 29.
Proof.
  intros Hp Hlt. apply tokenize_short_line.
  pose proof (buf_len_terminated (Cmd.msg st) (Cmd.msg_ptr st) Hlt) as H.
  unfold buf_len in H. lia.
Qed.

(** * Registration and dispatch *)

Lemma length_list_ascii (s : string) :
  length (list_ascii_of_string s) = String.length s.
Proof. induction s as [| c s IH]; cbn; [reflexivity | now rewrite IH]. Qed.

Lemma strcspn_token (s : string) (rest : list ascii) :
  token_chars s = true ->
  strcspn (line_of s rest) " " = String.length s.
Proof.
  unfold line_of. induction s as [| c s IH]; intros H.
  - reflexivity.
  - cbn in H. apply andb_prop in H as [H Hs]. apply andb_prop in H as [Hsp Hnul].
    apply negb_true_iff in Hsp, Hnul.
    cbn [list_ascii_of_string app strcspn in_set existsb String.length].
    unfold SP in Hsp. rewrite Hnul, Hsp. cbn [orb]. now rewrite IH.
Qed.

Lemma c_str_token (s : string) (rest : list ascii) :
  token_chars s = true ->
  c_str (line_of s rest) = s.
Proof.
  unfold line_of. induction s as [| c s IH]; intros H.
  - reflexivity.
  - cbn in H. apply andb_prop in H as [H Hs]. apply andb_prop in H as [_ Hnul].
    apply negb_true_iff in Hnul.
    cbn [list_ascii_of_string app c_str]. rewrite Hnul. now rewrite IH.
Qed.

Lemma strtok_single (s : string) (rest : list ascii) :
  is_token s = true ->
  strtok (line_of s rest) 0 " " = (Ptr 0, line_of s rest, String.length s).
Proof.
  intros H. destruct s as [| c s]; [discriminate |].
  cbn [is_token] in H. pose proof (strcspn_token _ rest H) as Hspan.
  pose proof H as H'. cbn in H'. apply andb_prop in H' as [H' _].
  apply andb_prop in H' as [Hsp Hnul]. apply negb_true_iff in Hsp, Hnul.
  unfold strtok. rewrite drop_0.
  assert (Hs0 : strspn (line_of (String c s) rest) " " = 0).
  { cbn. unfold SP in Hsp. rewrite Hsp. now rewrite andb_false_r. }
  rewrite Hs0. cbn [Nat.add]. rewrite drop_0, Hspan.
  assert (Hn0 : nth 0 (line_of (String c s) rest) NUL = c) by reflexivity.
  rewrite Hn0, Hnul.
  assert (Hn : nth (String.length (String c s)) (line_of (String c s) rest) NUL = NUL).
  { unfold line_of. rewrite <- length_list_ascii. apply nth_middle. }
  rewrite Hn. reflexivity.
Qed.

Lemma strtok_at_end (s : string) (rest : list ascii) :
  strtok (line_of s rest) (String.length s) " " = (Null, line_of s rest, String.length s).
Proof.
  unfold strtok.
  assert (Hd : drop (String.length s) (line_of s rest) = NUL :: rest).
  { unfold line_of. rewrite <- length_list_ascii. apply drop_app_length. }
  rewrite Hd. cbn [strspn Ascii.eqb NUL]. cbn. rewrite Nat.add_0_r.
  assert (Hn : nth (String.length s) (line_of s rest) NUL = NUL).
  { unfold line_of. rewrite <- length_list_ascii. apply nth_middle. }
  rewrite Hn. reflexivity.
Qed.

(** A line that consists of one token. *)
Lemma tokenize_single (s : string) (rest : list ascii) :
  is_token s = true ->
  Cmd.tokenize (line_of s rest) =
    Ok (1, Ptr 0 :: Null :: replicate 28 Uninit, line_of s rest).
Proof.
  intros H. unfold Cmd.tokenize. rewrite (strtok_single s rest H).
  cbn [store length replicate Nat.ltb Nat.leb bind Cmd.tokenize_loop].
  rewrite strtok_at_end. reflexivity.
Qed.

(** The search calls the function of the first entry with the name, then
    the prompt is shown. *)
Lemma parse_table_first_match (tbl : list Cmd.cmd_t) (argc : Z)
    (argv : list (slot string)) (t : string) (e : Cmd.cmd_t) (w : World) :
  argv !! 0 = Some (Ptr t) ->
  find (fun e => String.eqb t (Cmd.cmd e)) tbl = Some e ->
  Cmd.parse_table tbl argc argv w =
    bind (Cmd.func e argc argv w) (fun w' => Ok (Some (Cmd.display_prompt w'))).
Proof.
  intros H0. induction tbl as [| e' tbl IH]; intros Hfind; [discriminate |].
  cbn [Cmd.parse_table]. unfold read_str. rewrite H0. cbn [bind].
  cbn [find] in Hfind. destruct (String.eqb t (Cmd.cmd e')).
  - injection Hfind as ->. reflexivity.
  - fold (read_str argv 0). apply IH, Hfind.
Qed.

Lemma parse_table_no_match (tbl : list Cmd.cmd_t) (argc : Z)
    (argv : list (slot string)) (t : string) (w : World) :
  argv !! 0 = Some (Ptr t) ->
  find (fun e => String.eqb t (Cmd.cmd e)) tbl = None ->
  Cmd.parse_table tbl argc argv w = Ok None.
Proof.
  intros H0. induction tbl as [| e' tbl IH]; intros Hfind; [reflexivity |].
  cbn [Cmd.parse_table]. unfold read_str. rewrite H0. cbn [bind].
  cbn [find] in Hfind. destruct (String.eqb t (Cmd.cmd e')); [discriminate |].
  apply IH, Hfind.
Qed.

(** A name that is not in the table: one notice that names the token, then
    the prompt. *)
Lemma unknown_command_notice (tbl : list Cmd.cmd_t) (cmd buf : list ascii)
    (argc : nat) (argv : list (slot nat)) (t : string) (w : World) :
  Cmd.tokenize cmd = Ok (argc, argv, buf) ->
  map (Cmd.arg_str buf) argv !! 0 = Some (Ptr t) ->
  0 < strlen t ->
  find (fun e => String.eqb t (Cmd.cmd e)) tbl = None ->
  Cmd.parse tbl cmd w =
    Ok (buf,
        Cmd.display_prompt
          (println_to via_ser (Str "'")
             (print_to via_ser (Str t)
                (print_to via_ser (Str " '")
                   (print_to via_ser (Str Cmd.cmd_unrecog) w))))).
Proof.
  intros Htok H0 Hlen Hfind. unfold Cmd.parse. rewrite Htok. cbn [bind].
  rewrite (parse_table_no_match _ _ _ t w H0 Hfind). cbn [bind].
  unfold read_str. rewrite H0. cbn [bind].
  destruct (Nat.ltb_spec 0 (strlen t)); [reflexivity | lia].
Qed.

Example bogus_is_not_recognized :
  Cmd.parse [{| Cmd.cmd := "fox"; Cmd.func := mark "A" |}] (line_of "bogus" []) sample_world =
    Ok (line_of "bogus" [],
        Cmd.display_prompt
          (println_to via_ser (Str "'")
             (print_to via_ser (Str "bogus")
                (print_to via_ser (Str " '")
                   (print_to via_ser (Str Cmd.cmd_unrecog) sample_world))))).
Proof.
  apply (unknown_command_notice _ _ _ 1 (Ptr 0 :: Null :: replicate 28 Uninit) "bogus");
    reflexivity || (cbn; lia).
Qed.


(** C5. [add] puts the new entry in front of the table, so that after
    registering [a] and then [b] the table starts with [b], then [a]. The
    search of [parse] calls the function of the first entry whose name
    equals token 0, and shows the prompt after it. In particular, with
    distinct names, the line [a] calls the function registered for [a] with
    [argc = 1] and nothing of [b]. *)
Theorem dispatch_most_recent_first (a b : string) (fA fB : Cmd.func_t)
    (st : Cmd.state) (rest : list ascii) (w : World) :
  is_token a = true ->
  a <> b ->
  let st' := Cmd.add b fB (Cmd.add a fA st) in
  Cmd.cmd_tbl st' =
    {| Cmd.cmd := b; Cmd.func := fB |} :: {| Cmd.cmd := a; Cmd.func := fA |}
      :: Cmd.cmd_tbl_list st
  /\ (forall (tbl : list Cmd.cmd_t) (cmd buf : list ascii) (argc : nat)
        (argv : list (slot nat)) (t : string) (e : Cmd.cmd_t) (w : World),
        Cmd.tokenize cmd = Ok (argc, argv, buf) ->
        map (Cmd.arg_str buf) argv !! 0 = Some (Ptr t) ->
        find (fun e => String.eqb t (Cmd.cmd e)) tbl = Some e ->
        Cmd.parse tbl cmd w =
          bind (Cmd.func e (Z.of_nat argc) (map (Cmd.arg_str buf) argv) w)
            (fun w' => Ok (buf, Cmd.display_prompt w')))
  /\ Cmd.parse (Cmd.cmd_tbl st') (line_of a rest) w =
       bind (fA 1%Z (Ptr a :: Null :: replicate 28 Uninit) w)
         (fun w' => Ok (line_of a rest, Cmd.display_prompt w')).
Proof.
  intros Ha Hab st'. split; [reflexivity |]. split.
  - intros tbl cmd buf argc argv t e w0 Htok H0 Hfind.
    unfold Cmd.parse. rewrite Htok. cbn [bind].
    rewrite (parse_table_first_match _ _ _ t e w0 H0 Hfind).
    destruct (Cmd.func e (Z.of_nat argc) (map (Cmd.arg_str buf) argv) w0); reflexivity.
  - unfold Cmd.parse. rewrite (tokenize_single a rest Ha). cbn [bind].
    assert (Hargv : map (Cmd.arg_str (line_of a rest)) (Ptr 0 :: Null :: replicate 28 Uninit)
                    = Ptr a :: Null :: replicate 28 Uninit).
    { cbn [map Cmd.arg_str replicate]. rewrite drop_0.
      destruct a as [| c a]; [discriminate |]. cbn [is_token] in Ha.
      now rewrite (c_str_token _ rest Ha). }
    rewrite Hargv. change (Z.of_nat 1) with 1%Z.
    assert (Hfind : find (fun e => String.eqb a (Cmd.cmd e)) (Cmd.cmd_tbl st')
                    = Some {| Cmd.cmd := a; Cmd.func := fA |}).
    { cbn. apply String.eqb_neq in Hab. rewrite Hab, String.eqb_refl. reflexivity. }
    rewrite (parse_table_first_match _ 1%Z (Ptr a :: Null :: replicate 28 Uninit)
               a _ w eq_refl Hfind).
    cbn [Cmd.func]. destruct (fA _ _ w); reflexivity.
Qed.

(** C5 with [fox] registered before [call]. *)
Lemma dispatch_most_recent_first_witness :
  is_token "fox" = true /\ "fox"%string <> "call"%string /\
  Cmd.parse (Cmd.cmd_tbl (Cmd.add "call" (mark "B") (Cmd.add "fox" (mark "A") (idle 60 []))))
    (line_of "fox" []) sample_world =
    Ok (line_of "fox" [], Cmd.display_prompt (Serial_print (Str "A") sample_world)).
Proof.
  assert (H1 : is_token "fox" = true) by reflexivity.
  assert (H2 : "fox"%string <> "call"%string) by discriminate.
  exact (conj H1 (conj H2
    (proj2 (proj2 (dispatch_most_recent_first "fox" "call" (mark "A") (mark "B")
                     (idle 60 []) [] sample_world H1 H2))))).
Defined.

(** * The command handlers *)

Lemma Serial_print_first (it : item) (w : World) :
  Serial_print it w = only_printed [it] w.
Proof. reflexivity. Qed.

Lemma Serial_print_next (it : item) (items : list item) (w : World) :
  Serial_print it (only_printed items w) = only_printed (items ++ [it]) w.
Proof.
  unfold Serial_print, print_to, only_printed. cbn.
  rewrite map_app, app_assoc. reflexivity.
Qed.

Lemma PrintNumArgError_prints (argc : Z) (argv : list (slot string)) (name : string)
    (expectedArgc : Z) (w : World) :
  argv !! 0 = Some (Ptr name) ->
  (INT_MIN < argc <= INT_MAX)%Z ->
  (INT_MIN < expectedArgc <= INT_MAX)%Z ->
  PrintNumArgError argc argv expectedArgc w =
    Ok (only_printed (arg_count_message name (expectedArgc - 1) (argc - 1)) w).
Proof.
  intros H0 Hargc Hexp.
  assert (He : int_val (expectedArgc - 1) = Ok (expectedArgc - 1)%Z).
  { unfold int_val, INT_MIN, INT_MAX in *.
    destruct (Z.leb_spec (-2147483648) (expectedArgc - 1)); [| lia].
    destruct (Z.leb_spec (expectedArgc - 1) 2147483647); [reflexivity | lia]. }
  assert (Ha : int_val (argc - 1) = Ok (argc - 1)%Z).
  { unfold int_val, INT_MIN, INT_MAX in *.
    destruct (Z.leb_spec (-2147483648) (argc - 1)); [| lia].
    destruct (Z.leb_spec (argc - 1) 2147483647); [reflexivity | lia]. }
  unfold PrintNumArgError, read_str. rewrite He, H0. cbn [bind]. rewrite Ha. cbn [bind].
  unfold Serial_println, println_to. fold (Serial_print Ln).
  change (print_to via_Serial) with Serial_print.
  rewrite (Serial_print_first (Str "#Error: ")).
  unfold arg_count_message.
  destruct (expectedArgc - 1 =? 1)%Z; cbn [negb];
    repeat rewrite Serial_print_next; reflexivity.
Qed.

Section CommandFacts.

Variables (fox_len call_len First_RF_Pin Second_RF_Pin max_words : Z).
Variables (DATE TIME : string).
Variable get_mode_str : synth -> string.
Variable PrintStatus : World -> outcome World.

(** C6. Whatever was registered before [RegisterCommands], whatever the
    globals are and whatever follows the line in the buffer: dispatching
    [ampl 2.5] prints "Invalid amplitude value" and the prompt, and nothing
    else happens. The collaborator is as it was: same amplitude, no call
    logged, neither setter nor commit. *)
Theorem ampl_out_of_range_is_rejected (st : Cmd.state) (rest : list ascii) (w : World) :
  let tbl :=
    Cmd.cmd_tbl
      (RegisterCommands fox_len call_len First_RF_Pin Second_RF_Pin max_words
         DATE TIME get_mode_str PrintStatus st) in
  let w' := Cmd.display_prompt (Serial_println (Str "Invalid amplitude value") w) in
  Cmd.parse tbl (line_of "ampl 2.5" rest) w
    = Ok (line_of "ampl" (line_of "2.5" rest), w')
  /\ rf_synth w' = rf_synth w
  /\ amplitude (rf_synth w') = amplitude (rf_synth w)
  /\ calls (rf_synth w') = calls (rf_synth w).
Proof.
  intros tbl w'. split.
  - vm_compute. reflexivity.
  - split; [reflexivity | split; reflexivity].
Qed.

(** C7. Whatever was registered before [RegisterCommands], whatever the
    globals are and whatever follows the line in the buffer: dispatching
    [ampl 1.5] calls [set_amplitude(1.5)] and then [apply_settings()], once
    each, and shows the prompt; the amplitude is 1.5 afterwards. *)
Theorem ampl_in_range_is_applied (st : Cmd.state) (rest : list ascii) (w : World) :
  let tbl :=
    Cmd.cmd_tbl
      (RegisterCommands fox_len call_len First_RF_Pin Second_RF_Pin max_words
         DATE TIME get_mode_str PrintStatus st) in
  let w' :=
    Cmd.display_prompt (on_synth apply_settings (on_synth (set_amplitude 1.5) w)) in
  Cmd.parse tbl (line_of "ampl 1.5" rest) w
    = Ok (line_of "ampl" (line_of "1.5" rest), w')
  /\ amplitude (rf_synth w') = 1.5%float
  /\ calls (rf_synth w')
     = calls (rf_synth w) ++ [set_amplitude_call 1.5; apply_settings_call].
Proof.
  intros tbl w'. split; [| split].
  - vm_compute. reflexivity.
  - reflexivity.
  - cbn. rewrite <- app_assoc. reflexivity.
Qed.


End CommandFacts.


(** * Copies into [fox_string] and [callsign] *)

Lemma strlen_char_at (str : string) : forall i : nat,
  i < strlen str -> char_at str i <> NUL.
Proof.
  induction str as [| c str IH]; intros i Hi; cbn in Hi; [lia |].
  destruct (Ascii.eqb_spec c NUL) as [E | E]; [lia |].
  destruct i as [| i]; [exact E |].
  unfold char_at. cbn [String.get]. apply IH. lia.
Qed.

(** A source that is not shorter than the bound: the loop runs until [ii]
    is the bound and writes there. *)
Lemma copy_loop_overrun (str : string) (n : nat) (k : nat) :
  forall (i : nat) (dst : list ascii),
    i + k = n ->
    length dst = n ->
    n <= strlen str ->
    copy_loop (seq i (S k)) str dst = Stuck (OutOfBounds (Z.of_nat n)).
Proof.
  induction k as [| k IH]; intros i dst Hik Hlen Hstr.
  - cbn [seq copy_loop]. rewrite store_out by lia.
    replace i with n by lia. reflexivity.
  - cbn [seq copy_loop]. rewrite store_in by lia. cbn [bind].
    destruct (Ascii.eqb_spec (char_at str i) NUL) as [E | _].
    + exfalso. apply (strlen_char_at str i); [lia | exact E].
    + apply IH; [lia | rewrite length_insert; exact Hlen | exact Hstr].
Qed.

Lemma length_c_chars (str : string) : length (c_chars str) = strlen str.
Proof.
  induction str as [| c str IH]; [reflexivity |].
  cbn. destruct (Ascii.eqb c NUL); cbn; [reflexivity | now rewrite IH].
Qed.

Lemma char_at_strlen (str : string) : char_at str (strlen str) = NUL.
Proof.
  induction str as [| c str IH]; [reflexivity |].
  cbn [strlen]. destruct (Ascii.eqb_spec c NUL) as [E | E]; [exact E | exact IH].
Qed.

Lemma char_at_c_chars (str : string) : forall i : nat,
  i < strlen str -> c_chars str !! i = Some (char_at str i).
Proof.
  induction str as [| c str IH]; intros i Hi; cbn in Hi; [lia |].
  cbn [c_chars]. destruct (Ascii.eqb c NUL); [lia |].
  destruct i as [| i]; [reflexivity |].
  cbn [lookup list_lookup]. unfold char_at. cbn [String.get]. apply IH. lia.
Qed.

(** A source that is shorter than the bound is copied with its
    terminator, and the loop stops there. *)
Lemma copy_loop_fits (str : string) (m : nat) :
  forall (i k : nat) (dst : list ascii),
    i + m = strlen str ->
    strlen str < length dst ->
    m < k ->
    copy_loop (seq i k) str dst =
      Ok (list_inserts i (drop i (c_chars str) ++ [NUL]) dst).
Proof.
  induction m as [| m IH]; intros i k dst Him Hlen Hk.
  - destruct k as [| k]; [lia |]. cbn [seq copy_loop].
    rewrite store_in by lia. cbn [bind].
    replace i with (strlen str) by lia. rewrite char_at_strlen. cbn.
    rewrite drop_ge by (rewrite length_c_chars; lia). reflexivity.
  - destruct k as [| k]; [lia |]. cbn [seq copy_loop].
    rewrite store_in by lia. cbn [bind].
    destruct (Ascii.eqb_spec (char_at str i) NUL) as [E | _].
    + exfalso. apply (strlen_char_at str i); [lia | exact E].
    + rewrite IH by (rewrite ?length_insert; lia).
      rewrite (drop_S (c_chars str) (char_at str i) i) by (apply char_at_c_chars; lia).
      cbn [app list_inserts]. rewrite list_insert_inserts_lt by lia. reflexivity.
Qed.

(** [FoxCopy] of a source that is shorter than the array: the source is
    copied with its terminator, and the last element is a terminator. *)
Lemma FoxCopy_fits (fox_len : Z) (str : string) (w : World) :
  length (fox_string w) = Z.to_nat fox_len ->
  strlen str < Z.to_nat fox_len ->
  exists a : list ascii,
    FoxCopy fox_len str w = Ok (set_fox_string a w) /\
    a = <[Z.to_nat fox_len - 1 := NUL]> (list_inserts 0 (c_chars str ++ [NUL]) (fox_string w)) /\
    length a = Z.to_nat fox_len /\
    a !! (Z.to_nat fox_len - 1) = Some NUL.
Proof.
  intros Hlen Hstr. eexists. split; [| split; [reflexivity |]].
  - unfold FoxCopy.
    rewrite (copy_loop_fits str (strlen str) 0) by lia. cbn [bind].
    rewrite drop_0. unfold store_at.
    destruct (Z.ltb_spec (fox_len - 1) 0); [lia |].
    rewrite store_in by (rewrite length_inserts; lia). cbn [bind].
    replace (Z.to_nat (fox_len - 1)) with (Z.to_nat fox_len - 1) by lia.
    reflexivity.
  - rewrite length_insert, length_inserts. split; [exact Hlen |].
    apply list_lookup_insert_eq. rewrite length_inserts. lia.
Qed.

Lemma CallCopy_fits (call_len : Z) (str : string) (w : World) :
  length (callsign w) = Z.to_nat call_len ->
  strlen str < Z.to_nat call_len ->
  exists a : list ascii,
    CallCopy call_len str w = Ok (set_callsign a w) /\
    a = <[Z.to_nat call_len - 1 := NUL]> (list_inserts 0 (c_chars str ++ [NUL]) (callsign w)) /\
    length a = Z.to_nat call_len /\
    a !! (Z.to_nat call_len - 1) = Some NUL.
Proof.
  intros Hlen Hstr. eexists. split; [| split; [reflexivity |]].
  - unfold CallCopy.
    rewrite (copy_loop_fits str (strlen str) 0) by lia. cbn [bind].
    rewrite drop_0. unfold store_at.
    destruct (Z.ltb_spec (call_len - 1) 0); [lia |].
    rewrite store_in by (rewrite length_inserts; lia). cbn [bind].
    replace (Z.to_nat (call_len - 1)) with (Z.to_nat call_len - 1) by lia.
    reflexivity.
  - rewrite length_insert, length_inserts. split; [exact Hlen |].
    apply list_lookup_insert_eq. rewrite length_inserts. lia.
Qed.

(** C10, for the strings that are not shorter than the arrays. With
    [fox_string] an array of [fox_len] characters and a source of [fox_len]
    or more characters, the loop of [FoxCopy] runs until [ii = fox_len] and
    writes [str[fox_len]] to index [fox_len], one past the last element;
    [CallCopy] does the same with [callsign] and [call_len]. *)
Theorem copy_of_long_string_overruns (fox_len call_len : Z) (str : string) (w : World) :
  (0 <= fox_len)%Z ->
  (0 <= call_len)%Z ->
  Z.to_nat fox_len <= strlen str ->
  Z.to_nat call_len <= strlen str ->
  length (fox_string w) = Z.to_nat fox_len ->
  length (callsign w) = Z.to_nat call_len ->
  FoxCopy fox_len str w = Stuck (OutOfBounds fox_len) /\
  CallCopy call_len str w = Stuck (OutOfBounds call_len).
Proof.
  intros Hf Hc Hsf Hsc Hfox Hcall.
  assert (Hseqf : Z.to_nat (fox_len + 1) = S (Z.to_nat fox_len)) by lia.
  assert (Hseqc : Z.to_nat (call_len + 1) = S (Z.to_nat call_len)) by lia.
  unfold FoxCopy, CallCopy. rewrite Hseqf, Hseqc.
  rewrite (copy_loop_overrun str (Z.to_nat fox_len) (Z.to_nat fox_len) 0 (fox_string w))
    by (try assumption; lia).
  rewrite (copy_loop_overrun str (Z.to_nat call_len) (Z.to_nat call_len) 0 (callsign w))
    by (try assumption; lia).
  rewrite !Z2Nat.id by assumption. split; reflexivity.
Qed.

(** C10 with arrays of 4 and 7 characters and the call sign [SA5BYZ/P]. *)
Lemma copy_of_long_string_overruns_witness :
  length (fox_string sample_world) = 4 /\ length (callsign sample_world) = 7 /\
  strlen "SA5BYZ/P" = 8 /\
  FoxCopy 4 "SA5BYZ/P" sample_world = Stuck (OutOfBounds 4) /\
  CallCopy 7 "SA5BYZ/P" sample_world = Stuck (OutOfBounds 7).
Proof.
  assert (H1 : (0 <= 4)%Z) by lia.
  assert (H2 : (0 <= 7)%Z) by lia.
  assert (H3 : Z.to_nat 4 <= strlen "SA5BYZ/P") by (vm_compute; lia).
  assert (H4 : Z.to_nat 7 <= strlen "SA5BYZ/P") by (vm_compute; lia).
  assert (H5 : length (fox_string sample_world) = Z.to_nat 4) by reflexivity.
  assert (H6 : length (callsign sample_world) = Z.to_nat 7) by reflexivity.
  refine (conj H5 (conj H6 (conj eq_refl _))).
  exact (copy_of_long_string_overruns 4 7 "SA5BYZ/P" sample_world H1 H2 H3 H4 H5 H6).
Defined.

(** * The words of a line *)

Lemma in_set_space (c : ascii) : in_set " " c = Ascii.eqb c SP.
Proof. unfold in_set. cbn. apply orb_false_r. Qed.

(** [strtok] looks at the buffer from the search position on only. *)
Lemma strtok_app (pre r : list ascii) (d : string) :
  strtok (pre ++ r) (length pre) d =
    let '(t, r', k) := strtok r 0 d in (shift (length pre) t, pre ++ r', length pre + k).
Proof.
  unfold strtok. rewrite drop_app_length, drop_0. cbn [Nat.add].
  set (n1 := strspn r d).
  rewrite (app_nth2_plus pre r NUL n1).
  destruct (Ascii.eqb (nth n1 r NUL) NUL); [reflexivity |].
  rewrite (drop_app_add pre r n1).
  set (n2 := strcspn (drop n1 r) d).
  replace (length pre + n1 + n2) with (length pre + (n1 + n2)) by lia.
  rewrite (app_nth2_plus pre r NUL (n1 + n2)).
  destruct (Ascii.eqb (nth (n1 + n2) r NUL) NUL); cbn [shift]; [reflexivity |].
  rewrite insert_app_r. f_equal. lia.
Qed.

Lemma split_line_run (l : list ascii) :
  split_line l = (run l, words (drop (strcspn l " ") l)).
Proof.
  unfold run. induction l as [| c l IH]; [reflexivity |].
  cbn [split_line strcspn]. rewrite in_set_space.
  destruct (Ascii.eqb c NUL) eqn:En; cbn [orb].
  - cbn. unfold words. cbn. rewrite En. reflexivity.
  - rewrite IH. destruct (Ascii.eqb c SP) eqn:Es.
    + cbn [take drop string_of_list_ascii]. unfold words at 2.
      cbn [split_line]. rewrite En, IH, Es. reflexivity.
    + reflexivity.
Qed.

Lemma words_run (l : list ascii) :
  words l = keep_word (run l) (words (drop (strcspn l " ") l)).
Proof. unfold words at 1. rewrite split_line_run. reflexivity. Qed.

Lemma words_space (l : list ascii) : words (SP :: l) = words l.
Proof. unfold words. cbn. destruct (split_line l). reflexivity. Qed.

Lemma words_at_end (l : list ascii) : nth 0 l NUL = NUL -> words l = [].
Proof.
  destruct l as [| c l]; [reflexivity |]. cbn [nth]. intros ->. reflexivity.
Qed.

(** Leading spaces do not count. *)
Lemma words_strspn (l : list ascii) : words (drop (strspn l " ") l) = words l.
Proof.
  induction l as [| c l IH]; [reflexivity |].
  cbn [strspn]. rewrite in_set_space.
  destruct (Ascii.eqb_spec c NUL) as [En | En]; cbn [negb andb]; [reflexivity |].
  destruct (Ascii.eqb_spec c SP) as [-> | Es]; [| reflexivity].
  cbn [drop]. rewrite IH, words_space. reflexivity.
Qed.

(** The character after a run is a space or the terminator. *)
Lemma strcspn_stops (l : list ascii) :
  nth (strcspn l " ") l NUL <> NUL -> nth (strcspn l " ") l NUL = SP.
Proof.
  induction l as [| c l IH]; [cbn; congruence |].
  cbn [strcspn]. rewrite in_set_space.
  destruct (Ascii.eqb_spec c NUL) as [En | En]; cbn [orb]; [cbn; congruence |].
  destruct (Ascii.eqb_spec c SP) as [Es | Es]; cbn [nth]; [intros _; exact Es | exact IH].
Qed.

Lemma strcspn_length (l : list ascii) (d : string) : strcspn l d <= length l.
Proof.
  induction l as [| c l IH]; cbn; [lia |].
  destruct (Ascii.eqb c NUL || in_set d c); cbn; lia.
Qed.

Lemma strspn_length (l : list ascii) (d : string) : strspn l d <= length l.
Proof.
  induction l as [| c l IH]; cbn; [lia |].
  destruct (negb (Ascii.eqb c NUL) && in_set d c); cbn; lia.
Qed.

(** A run read back as a C string, whatever follows its terminator. *)
Lemma c_str_run (l tail : list ascii) :
  c_str (take (strcspn l " ") l ++ NUL :: tail) = run l.
Proof.
  unfold run. induction l as [| c l IH]; [reflexivity |].
  cbn [strcspn]. rewrite in_set_space.
  destruct (Ascii.eqb c NUL) eqn:En; cbn [orb]; [reflexivity |].
  destruct (Ascii.eqb c SP) eqn:Es; [reflexivity |].
  cbn [take app c_str string_of_list_ascii]. rewrite En, IH. reflexivity.
Qed.

Lemma c_str_run_end (l : list ascii) :
  nth (strcspn l " ") l NUL = NUL -> c_str l = run l.
Proof.
  unfold run. induction l as [| c l IH]; [reflexivity |].
  cbn [strcspn]. rewrite in_set_space.
  destruct (Ascii.eqb_spec c NUL) as [En | En]; cbn [orb].
  - cbn. intros _. apply Ascii.eqb_eq in En. rewrite En. reflexivity.
  - destruct (Ascii.eqb_spec c SP) as [Es | Es]; cbn [nth].
    + intros E. contradiction.
    + intros E. cbn [take c_str string_of_list_ascii].
      apply Ascii.eqb_neq in En. rewrite En, (IH E). reflexivity.
Qed.

Lemma run_nonempty (l : list ascii) :
  nth 0 l NUL <> NUL -> in_set " " (nth 0 l NUL) = false -> run l <> EmptyString.
Proof.
  unfold run. destruct l as [| c l]; cbn [nth]; [congruence |].
  intros En Es. cbn [strcspn]. apply Ascii.eqb_neq in En. rewrite En, Es. discriminate.
Qed.

(** One call of [strtok] on a buffer searched from its start, in terms of
    the words of the line. *)
Lemma strtok_words (r : list ascii) :
  match words r with
  | [] => strtok r 0 " " = (Null, r, strspn r " ")
  | w :: ws =>
      exists b k r1,
        strtok r 0 " " = (Ptr b, r1, k) /\
        b < k <= length r /\
        length r1 = length r /\
        words (drop k r1) = ws /\
        forall tail, (ws = [] -> tail = drop k r1) ->
          c_str (drop b (take k r1) ++ tail) = w
  end.
Proof.
  unfold strtok. rewrite drop_0. cbn [Nat.add].
  set (n1 := strspn r " "). set (r1 := drop n1 r).
  assert (Hw : words r = words r1) by (symmetry; apply words_strspn).
  assert (Hhd : nth n1 r NUL = nth 0 r1 NUL).
  { unfold r1. rewrite nth_skipn. f_equal. lia. }
  assert (Hn1 : n1 <= length r) by apply strspn_length.
  rewrite Hw.
  destruct (Ascii.eqb_spec (nth n1 r NUL) NUL) as [E | E]; rewrite Hhd in E.
  - rewrite (words_at_end r1 E). reflexivity.
  - set (n2 := strcspn r1 " ").
    assert (Hns : in_set " " (nth 0 r1 NUL) = false).
    { rewrite <- Hhd. apply strspn_stops. fold n1. rewrite Hhd. exact E. }
    assert (Hpos : 1 <= n2) by (apply strcspn_pos; assumption).
    assert (Hn2 : n2 <= length r1) by apply strcspn_length.
    assert (Hlen1 : length r1 = length r - n1) by (unfold r1; apply length_drop).
    assert (He : nth (n1 + n2) r NUL = nth n2 r1 NUL).
    { unfold r1. rewrite nth_skipn. reflexivity. }
    assert (Hrun : run r1 <> EmptyString) by (apply run_nonempty; assumption).
    rewrite (words_run r1). fold n2.
    destruct (run r1) as [| c0 w0] eqn:Erun; [congruence |]. cbn [keep_word].
    assert (Hdt : forall x : list ascii,
               drop n1 (take (n1 + n2) x) = take n2 (drop n1 x)).
    { intros x. rewrite skipn_firstn_comm. f_equal. lia. }
    destruct (Ascii.eqb_spec (nth (n1 + n2) r NUL) NUL) as [E2 | E2]; rewrite He in E2.
    + (* the word ends the line *)
      exists n1, (n1 + n2), r.
      assert (Hrest : words (drop n2 r1) = []).
      { apply words_at_end. rewrite nth_skipn, Nat.add_0_r. exact E2. }
      rewrite Hrest.
      assert (Hdrop : drop (n1 + n2) r = drop n2 r1) by (unfold r1; now rewrite drop_drop).
      rewrite Hdrop, Hrest.
      split; [reflexivity |]. split; [lia |]. split; [reflexivity |].
      split; [reflexivity |].
      intros tail Htail. rewrite (Htail eq_refl), Hdt. fold r1.
      rewrite take_drop, <- Erun. apply c_str_run_end. exact E2.
    + (* the word is followed by a space *)
      assert (Hsp : nth n2 r1 NUL = SP) by (apply strcspn_stops; exact E2).
      assert (Hlt : n2 < length r1).
      { destruct (Nat.lt_ge_cases n2 (length r1)) as [H | H]; [exact H |].
        exfalso. apply E2. apply nth_overflow. exact H. }
      exists n1, (S (n1 + n2)), (<[n1 + n2 := NUL]> r).
      assert (Hdrop : drop (S (n1 + n2)) (<[n1 + n2 := NUL]> r) = drop (S n2) r1).
      { rewrite drop_insert_lt by lia. unfold r1. rewrite drop_drop. f_equal. lia. }
      assert (Hnext : words (drop n2 r1) = words (drop (S n2) r1)).
      { rewrite (drop_S r1 SP n2); [apply words_space |].
        destruct (lookup_lt_is_Some_2 r1 n2 Hlt) as [x Hx].
        rewrite (nth_lookup_Some r1 n2 NUL x Hx) in Hsp. now rewrite Hx, Hsp. }
      rewrite Hdrop, Hnext.
      split; [reflexivity |]. split; [lia |].
      split; [apply length_insert |]. split; [reflexivity |].
      intros tail _.
      assert (Htake : take (S (n1 + n2)) (<[n1 + n2 := NUL]> r)
                      = take (n1 + n2) r ++ [NUL]).
      { rewrite insert_take_drop by lia.
        assert (Hl : length (take (n1 + n2) r) = n1 + n2) by (rewrite length_take; lia).
        replace (S (n1 + n2)) with (length (take (n1 + n2) r) + 1) at 1 by lia.
        rewrite take_app_add. reflexivity. }
      rewrite Htake, drop_app_le by (rewrite length_take; lia).
      rewrite Hdt. fold r1. rewrite <- app_assoc. cbn [app].
      rewrite <- Erun. apply c_str_run.
Qed.

Lemma words_tokens (l : list ascii) : Forall (fun w => is_token w = true) (words l).
Proof.
  assert (H : token_chars (fst (split_line l)) = true /\
              Forall (fun w => is_token w = true) (snd (split_line l))).
  { induction l as [| c l IH]; [split; [reflexivity | constructor] |].
    cbn [split_line]. destruct (Ascii.eqb c NUL) eqn:En; [split; [reflexivity | constructor] |].
    destruct (split_line l) as [w ws]. cbn [fst snd] in IH. destruct IH as [Hw Hws].
    destruct (Ascii.eqb c SP) eqn:Es; cbn [fst snd].
    - split; [reflexivity |]. destruct w as [| c' w']; [exact Hws |].
      constructor; assumption.
    - split; [| exact Hws]. cbn [token_chars]. now rewrite Es, En, Hw. }
  unfold words. destruct (split_line l) as [w ws]. cbn [fst snd] in H.
  destruct H as [Hw Hws]. destruct w as [| c w]; [exact Hws |].
  constructor; assumption.
Qed.

Lemma token_strlen (w : string) : is_token w = true -> 0 < strlen w.
Proof.
  destruct w as [| c w]; [discriminate |]. cbn.
  destruct (Ascii.eqb c NUL); [rewrite andb_false_r; discriminate | lia].
Qed.

(** The tokenizing loop on a line that leaves room in [argv]: one pointer
    per word, then a null pointer. *)
Lemma tokenize_loop_words (fuel : nat) :
  forall (i : nat) (argv : list (slot nat)) (pre r : list ascii),
    length argv = 30 ->
    30 <= i + fuel ->
    i + 1 + length (words r) <= 29 ->
    exists (ps : list nat) (r' : list ascii),
      Cmd.tokenize_loop fuel i argv (pre ++ r) (length pre) =
        Ok (i + 1 + length (words r),
            list_inserts (S i) (map Ptr ps ++ [Null]) argv, pre ++ r') /\
      length r' = length r /\
      (words r = [] -> r' = r) /\
      Forall2 (fun p w => length pre <= p /\ c_str (drop p (pre ++ r')) = w)
        ps (words r).
Proof.
  induction fuel as [| fuel IH]; intros i argv pre r Hlen Hfuel Hroom; [lia |].
  cbn [Cmd.tokenize_loop]. rewrite strtok_app.
  pose proof (strtok_words r) as Htok.
  destruct (words r) as [| w ws] eqn:Hw.
  - rewrite Htok. cbn [shift]. rewrite store_in by lia. cbn [bind is_ptr].
    rewrite andb_false_r. exists [], r. cbn [map app list_inserts length].
    replace (i + 1 + 0) with (S i) by lia.
    split; [reflexivity |]. split; [reflexivity |]. split; [reflexivity | constructor].
  - destruct Htok as (b & k & r1 & -> & Hbk & Hl1 & Hws & Hstr).
    cbn [shift length] in *. rewrite store_in by lia. cbn [bind is_ptr].
    destruct (Nat.ltb_spec (S i) 30) as [_ | Hge]; [| lia]. cbn [andb].
    assert (Hsplit : pre ++ r1 = (pre ++ take k r1) ++ drop k r1)
      by (rewrite <- app_assoc, take_drop; reflexivity).
    assert (Hpre : length pre + k = length (pre ++ take k r1))
      by (rewrite length_app, length_take; lia).
    rewrite Hsplit, Hpre.
    destruct (IH (S i) (<[S i := Ptr (length pre + b)]> argv) (pre ++ take k r1) (drop k r1))
      as (ps & r' & Hrun & Hlr & Hnil & Hall);
      try (rewrite ?length_insert, ?Hws; lia).
    rewrite Hrun, Hws. exists ((length pre + b) :: ps), (take k r1 ++ r').
    split; [| split; [| split]].
    + cbn [map app list_inserts].
      rewrite list_insert_inserts_lt by lia. rewrite <- app_assoc.
      do 3 f_equal. lia.
    + rewrite length_app, length_take, Hlr, length_drop. lia.
    + discriminate.
    + constructor.
      * split; [lia |].
        rewrite drop_app_add, drop_app_le by (rewrite length_take; lia).
        apply Hstr. intros ->. apply Hnil. exact Hws.
      * rewrite Hws in Hall. eapply Forall2_impl; [exact Hall |].
        intros p w' [Hp Hc]. rewrite length_app in Hp. rewrite <- app_assoc in Hc.
        split; [lia | exact Hc].
Qed.

(** The loop on a line that has more words than [argv] has room for. *)
Lemma tokenize_loop_overrun (fuel : nat) :
  forall (i : nat) (argv : list (slot nat)) (pre r : list ascii),
    length argv = 30 ->
    30 <= i + fuel ->
    i < 30 ->
    30 <= i + 1 + length (words r) ->
    Cmd.tokenize_loop fuel i argv (pre ++ r) (length pre) = Stuck (OutOfBounds 30).
Proof.
  induction fuel as [| fuel IH]; intros i argv pre r Hlen Hfuel Hi Hmany; [lia |].
  cbn [Cmd.tokenize_loop]. rewrite strtok_app.
  destruct (strtok r 0 " ") as [[tok r1] k] eqn:Htok.
  destruct (Nat.eq_dec (S i) 30) as [E | E].
  - rewrite store_out by lia. rewrite E. reflexivity.
  - pose proof (strtok_words r) as Hw.
    destruct (words r) as [| w ws] eqn:Hwords; [cbn in Hmany; lia |].
    destruct Hw as (b & k' & r1' & Heq & Hbk & Hl1 & Hws & _).
    rewrite Htok in Heq. injection Heq as -> -> ->. cbn [shift].
    rewrite store_in by lia. cbn [bind is_ptr].
    destruct (Nat.ltb_spec (S i) 30) as [_ | Hge]; [| lia]. cbn [andb].
    assert (Hsplit : pre ++ r1' = (pre ++ take k' r1') ++ drop k' r1')
      by (rewrite <- app_assoc, take_drop; reflexivity).
    assert (Hpre : length pre + k' = length (pre ++ take k' r1'))
      by (rewrite length_app, length_take; lia).
    rewrite Hsplit, Hpre. apply IH; try (rewrite ?length_insert; lia).
    rewrite Hws. cbn [length] in Hmany. lia.
Qed.

Lemma inserts_replicate {A : Type} (k : list A) (n : nat) (x : A) :
  length k <= n ->
  list_inserts 0 k (replicate n x) = k ++ replicate (n - length k) x.
Proof.
  intros H. replace n with (length k + (n - length k)) at 1 by lia.
  rewrite replicate_add. apply list_inserts_0_r. now rewrite length_replicate.
Qed.

Lemma map_arg_str (buf : list ascii) (ps : list nat) (ws : list string) (m : nat) :
  Forall2 (fun p w => c_str (drop p buf) = w) ps ws ->
  map (Cmd.arg_str buf) (map Ptr ps ++ Null :: replicate m Uninit) =
    map Ptr ws ++ Null :: replicate m Uninit.
Proof.
  intros H. induction H as [| p w ps ws Hc _ IH].
  - cbn [map app Cmd.arg_str]. f_equal.
    induction m as [| m IH]; [reflexivity | cbn; now rewrite IH].
  - cbn [map app Cmd.arg_str]. now rewrite Hc, IH.
Qed.

(** [tokenize] on a line of 1 to 29 words. *)
Lemma tokenize_words_ok (cmd : list ascii) :
  1 <= length (words cmd) <= 29 ->
  exists (argv : list (slot nat)) (buf : list ascii),
    Cmd.tokenize cmd = Ok (length (words cmd), argv, buf) /\
    length buf = length cmd /\
    map (Cmd.arg_str buf) argv =
      map Ptr (words cmd) ++ Null :: replicate (29 - length (words cmd)) Uninit.
Proof.
  intros Hn. unfold Cmd.tokenize.
  pose proof (strtok_words cmd) as Htok.
  destruct (words cmd) as [| w ws] eqn:Hw; [cbn in Hn; lia |].
  destruct Htok as (b & k & r1 & -> & Hbk & Hl1 & Hws & Hstr).
  cbn [length] in Hn.
  rewrite store_in by (rewrite length_replicate; lia). cbn [bind].
  destruct (tokenize_loop_words 30 0 (<[0 := Ptr b]> (replicate 30 Uninit))
              (take k r1) (drop k r1))
    as (ps & r' & Hrun & Hlr & Hnil & Hall);
    try (rewrite ?length_insert, ?length_replicate, ?Hws; lia).
  rewrite take_drop, length_take in Hrun.
  replace (k `min` length r1) with k in Hrun by lia.
  rewrite Hrun, Hws.
  assert (Hps : length ps = length ws) by (rewrite Hws in Hall; eapply Forall2_length; eauto).
  eexists _, _. split; [reflexivity |]. split.
  { rewrite length_app, length_take, Hlr, length_drop. lia. }
  rewrite <- list_insert_inserts_lt by lia.
  change (<[0 := Ptr b]> (list_inserts 1 (map Ptr ps ++ [Null]) (replicate 30 Uninit)))
    with (list_inserts 0 (map Ptr (b :: ps) ++ [Null]) (replicate 30 (Uninit (A := nat)))).
  rewrite inserts_replicate by (rewrite length_app, length_map; cbn; lia).
  rewrite length_app, length_map. cbn [length]. rewrite <- app_assoc. cbn [app].
  replace (30 - (S (length ps) + 1)) with (29 - S (length ws)) by lia.
  apply map_arg_str. constructor.
  - rewrite drop_app_le by (rewrite length_take; lia).
    apply Hstr. intros ->. apply Hnil. exact Hws.
  - rewrite Hws in Hall. eapply Forall2_impl; [exact Hall |].
    intros p w' [_ Hc]. exact Hc.
Qed.

Lemma tokenize_blank (cmd : list ascii) :
  words cmd = [] ->
  Cmd.tokenize cmd = Ok (1, Null :: Null :: replicate 28 Uninit, cmd).
Proof.
  intros Hw. unfold Cmd.tokenize.
  pose proof (strtok_words cmd) as Htok. rewrite Hw in Htok. rewrite Htok.
  rewrite store_in by (rewrite length_replicate; lia). cbn [bind].
  set (s := strspn cmd " ").
  assert (Hs : s <= length cmd) by apply strspn_length.
  destruct (tokenize_loop_words 30 0 (<[0 := Null]> (replicate 30 Uninit))
              (take s cmd) (drop s cmd))
    as (ps & r' & Hrun & Hlr & Hnil & Hall);
    try (unfold s; rewrite ?length_insert, ?length_replicate, ?words_strspn, ?Hw; cbn; lia).
  rewrite take_drop, length_take in Hrun.
  replace (s `min` length cmd) with s in Hrun by lia.
  unfold s in Hall, Hnil, Hrun. rewrite words_strspn, Hw in Hall, Hnil, Hrun.
  inversion Hall; subst. rewrite (Hnil eq_refl), take_drop in Hrun.
  exact Hrun.
Qed.

Lemma tokenize_many (cmd : list ascii) :
  30 <= length (words cmd) ->
  Cmd.tokenize cmd = Stuck (OutOfBounds 30).
Proof.
  intros Hn. unfold Cmd.tokenize.
  pose proof (strtok_words cmd) as Htok.
  destruct (words cmd) as [| w ws] eqn:Hw; [cbn in Hn; lia |].
  destruct Htok as (b & k & r1 & -> & Hbk & Hl1 & Hws & _).
  cbn [length] in Hn.
  rewrite store_in by (rewrite length_replicate; lia). cbn [bind].
  pose proof (tokenize_loop_overrun 30 0 (<[0 := Ptr b]> (replicate 30 Uninit))
                (take k r1) (drop k r1)) as Hrun.
  rewrite take_drop, length_take in Hrun.
  replace (k `min` length r1) with k in Hrun by lia.
  apply Hrun; rewrite ?length_insert, ?length_replicate, ?Hws; lia.
Qed.

Example words_example :
  words (line_of "  freq  14000000 " []) = ["freq"; "14000000"]%string.
Proof. reflexivity. Qed.

(** X1. A line of 1 to 29 words is tokenized as its words: the tokenizing
    part of [parse] returns, [argc] is the number of words, [argv] holds
    pointers to the words in order, each read back from the buffer as a
    terminated string, then a null pointer, and the slots after that are
    never written. The buffer keeps its length. Every word is a non-empty
    string without a space. *)
Theorem tokenize_yields_words (cmd : list ascii) :
  1 <= length (words cmd) <= 29 ->
  exists (argv : list (slot nat)) (buf : list ascii),
    Cmd.tokenize cmd = Ok (length (words cmd), argv, buf) /\
    length buf = length cmd /\
    map (Cmd.arg_str buf) argv =
      map Ptr (words cmd) ++ Null :: replicate (29 - length (words cmd)) Uninit /\
    Forall (fun w => is_token w = true) (words cmd).
Proof.
  intros Hn. destruct (tokenize_words_ok cmd Hn) as (argv & buf & H1 & H2 & H3).
  exists argv, buf. repeat split; try assumption; try lia. apply words_tokens.
Qed.

(** X1 for the line [fox  MOS], two spaces between its words. *)
Lemma tokenize_yields_words_witness :
  1 <= length (words (line_of "fox  MOS" [])) <= 29 /\
  exists (argv : list (slot nat)) (buf : list ascii),
    Cmd.tokenize (line_of "fox  MOS" []) = Ok (length (words (line_of "fox  MOS" [])), argv, buf) /\
    length buf = length (line_of "fox  MOS" []) /\
    map (Cmd.arg_str buf) argv =
      map Ptr (words (line_of "fox  MOS" [])) ++ Null
        :: replicate (29 - length (words (line_of "fox  MOS" []))) Uninit /\
    Forall (fun w => is_token w = true) (words (line_of "fox  MOS" [])).
Proof.
  assert (H : 1 <= length (words (line_of "fox  MOS" [])) <= 29) by (vm_compute; lia).
  exact (conj H (tokenize_yields_words (line_of "fox  MOS" []) H)).
Defined.

(** X2. A line without a word, empty or of spaces only: the first [strtok]
    returns null, so [argc] is 1 with [argv[0]] and [argv[1]] null and the
    buffer untouched, and [parse] then dereferences the null [argv[0]], in
    [strcmp] when the table has an entry and in [strlen] when it has none. *)
Theorem line_without_words_is_stuck (tbl : list Cmd.cmd_t) (cmd : list ascii) (w : World) :
  words cmd = [] ->
  Cmd.tokenize cmd = Ok (1, Null :: Null :: replicate 28 Uninit, cmd) /\
  Cmd.parse tbl cmd w = Stuck NullDeref.
Proof.
  intros Hw. pose proof (tokenize_blank cmd Hw) as Htok. split; [exact Htok |].
  unfold Cmd.parse. rewrite Htok. cbn [bind].
  destruct tbl as [| e tbl]; reflexivity.
Qed.

(** X2 for a line of three spaces. *)
Lemma line_without_words_is_stuck_witness :
  words (line_of "   " []) = [] /\
  Cmd.tokenize (line_of "   " []) = Ok (1, Null :: Null :: replicate 28 Uninit, line_of "   " []) /\
  Cmd.parse [{| Cmd.cmd := "fox"; Cmd.func := mark "A" |}] (line_of "   " []) sample_world
    = Stuck NullDeref.
Proof.
  assert (H : words (line_of "   " []) = []) by reflexivity.
  exact (conj H (line_without_words_is_stuck
                   [{| Cmd.cmd := "fox"; Cmd.func := mark "A" |}] (line_of "   " [])
                   sample_world H)).
Defined.

(** X3. A line of 30 words or more: the tokenizing loop stores into
    [argv[30]], one past the array of 30 pointers, and so does [parse],
    whatever the table is. *)
Theorem thirty_words_overrun (tbl : list Cmd.cmd_t) (cmd : list ascii) (w : World) :
  30 <= length (words cmd) ->
  Cmd.tokenize cmd = Stuck (OutOfBounds 30) /\
  Cmd.parse tbl cmd w = Stuck (OutOfBounds 30).
Proof.
  intros Hn. pose proof (tokenize_many cmd Hn) as Htok. split; [exact Htok |].
  unfold Cmd.parse. rewrite Htok. reflexivity.
Qed.

(** X3 for the line of thirty words [a]. *)
Lemma thirty_words_overrun_witness :
  30 <= length (words (thirty_tokens ++ [NUL])) /\
  Cmd.tokenize (thirty_tokens ++ [NUL]) = Stuck (OutOfBounds 30) /\
  Cmd.parse [] (thirty_tokens ++ [NUL]) sample_world = Stuck (OutOfBounds 30).
Proof.
  assert (H : 30 <= length (words (thirty_tokens ++ [NUL]))) by (vm_compute; lia).
  exact (conj H (thirty_words_overrun [] (thirty_tokens ++ [NUL]) sample_world H)).
Defined.

(** X5. A line whose words are a registered name followed by at most 28
    arguments: [parse] calls the function of the first entry with that name,
    with [argc] the number of words and [argv] the words followed by a null
    pointer, and shows the prompt when the function returns; a fault of the
    function is the fault of [parse]. *)
Theorem dispatch_passes_words (tbl : list Cmd.cmd_t) (cmd : list ascii)
    (t : string) (args : list string) (e : Cmd.cmd_t) (w : World) :
  words cmd = t :: args ->
  length args <= 28 ->
  find (fun e => String.eqb t (Cmd.cmd e)) tbl = Some e ->
  exists buf : list ascii,
    length buf = length cmd /\
    Cmd.parse tbl cmd w =
      bind (Cmd.func e (Z.of_nat (S (length args)))
              (Ptr t :: map Ptr args ++ Null :: replicate (28 - length args) Uninit) w)
        (fun w' => Ok (buf, Cmd.display_prompt w')).
Proof.
  intros Hw Hn Hfind.
  destruct (tokenize_words_ok cmd) as (argv & buf & Htok & Hlen & Hargv);
    [rewrite Hw; cbn; lia |].
  rewrite Hw in Htok, Hargv. cbn [length map app] in Htok, Hargv.
  replace (29 - S (length args)) with (28 - length args) in Hargv by lia.
  exists buf. split; [exact Hlen |].
  unfold Cmd.parse. rewrite Htok. cbn [bind]. rewrite Hargv.
  rewrite (parse_table_first_match tbl (Z.of_nat (S (length args)))
             (Ptr t :: map Ptr args ++ Null :: replicate (28 - length args) Uninit)
             t e w eq_refl Hfind).
  destruct (Cmd.func e _ _ w); reflexivity.
Qed.

(** X5 for the line [fox MOS] with [fox] registered. *)
Lemma dispatch_passes_words_witness :
  let e := {| Cmd.cmd := "fox"; Cmd.func := mark "A" |} in
  words (line_of "fox MOS" []) = ["fox"; "MOS"]%string /\
  length ["MOS"%string] <= 28 /\
  find (fun e => String.eqb "fox" (Cmd.cmd e)) [e] = Some e /\
  exists buf : list ascii,
    length buf = length (line_of "fox MOS" []) /\
    Cmd.parse [e] (line_of "fox MOS" []) sample_world =
      bind (Cmd.func e (Z.of_nat (S (length ["MOS"%string])))
              (Ptr "fox"%string :: map Ptr ["MOS"%string] ++ Null
                 :: replicate (28 - length ["MOS"%string]) Uninit) sample_world)
        (fun w' => Ok (buf, Cmd.display_prompt w')).
Proof.
  intros e.
  assert (H1 : words (line_of "fox MOS" []) = ["fox"; "MOS"]%string) by reflexivity.
  assert (H2 : length ["MOS"%string] <= 28) by (cbn; lia).
  assert (H3 : find (fun e => String.eqb "fox" (Cmd.cmd e)) [e] = Some e) by reflexivity.
  exact (conj H1 (conj H2 (conj H3
    (dispatch_passes_words [e] (line_of "fox MOS" []) "fox" ["MOS"%string] e sample_world
       H1 H2 H3)))).
Defined.

(** X6. A line whose first word is no registered name (at most 29 words):
    no function is called; [parse] prints "CMD: Command not recognized.",
    the word between quotes and a line end, and then the prompt. *)
Theorem unknown_command_is_named (tbl : list Cmd.cmd_t) (cmd : list ascii)
    (t : string) (args : list string) (w : World) :
  words cmd = t :: args ->
  length args <= 28 ->
  find (fun e => String.eqb t (Cmd.cmd e)) tbl = None ->
  exists buf : list ascii,
    length buf = length cmd /\
    Cmd.parse tbl cmd w =
      Ok (buf,
          Cmd.display_prompt
            (println_to via_ser (Str "'")
               (print_to via_ser (Str t)
                  (print_to via_ser (Str " '")
                     (print_to via_ser (Str Cmd.cmd_unrecog) w))))).
Proof.
  intros Hw Hn Hfind.
  destruct (tokenize_words_ok cmd) as (argv & buf & Htok & Hlen & Hargv);
    [rewrite Hw; cbn; lia |].
  rewrite Hw in Htok, Hargv. cbn [length map app] in Htok, Hargv.
  exists buf. split; [exact Hlen |].
  assert (Ht : 0 < strlen t).
  { apply token_strlen. pose proof (words_tokens cmd) as Hall. rewrite Hw in Hall.
    now inversion Hall. }
  apply (unknown_command_notice tbl cmd buf _ argv t w Htok); try assumption.
  rewrite Hargv. reflexivity.
Qed.

(** X6 for the line [bogus 1] with only [fox] registered. *)
Lemma unknown_command_is_named_witness :
  let tbl := [{| Cmd.cmd := "fox"; Cmd.func := mark "A" |}] in
  words (line_of "bogus 1" []) = ["bogus"; "1"]%string /\
  length ["1"%string] <= 28 /\
  find (fun e => String.eqb "bogus" (Cmd.cmd e)) tbl = None /\
  exists buf : list ascii,
    length buf = length (line_of "bogus 1" []) /\
    Cmd.parse tbl (line_of "bogus 1" []) sample_world =
      Ok (buf,
          Cmd.display_prompt
            (println_to via_ser (Str "'")
               (print_to via_ser (Str "bogus")
                  (print_to via_ser (Str " '")
                     (print_to via_ser (Str Cmd.cmd_unrecog) sample_world))))).
Proof.
  intros tbl.
  assert (H1 : words (line_of "bogus 1" []) = ["bogus"; "1"]%string) by reflexivity.
  assert (H2 : length ["1"%string] <= 28) by (cbn; lia).
  assert (H3 : find (fun e => String.eqb "bogus" (Cmd.cmd e)) tbl = None) by reflexivity.
  exact (conj H1 (conj H2 (conj H3
    (unknown_command_is_named tbl (line_of "bogus 1" []) "bogus" ["1"%string] sample_world
       H1 H2 H3)))).
Defined.

(** * The line editor *)

Lemma strtok_length (buf : list ascii) (s : nat) (d : string)
    (tok : slot nat) (buf' : list ascii) (s' : nat) :
  strtok buf s d = (tok, buf', s') -> length buf' = length buf.
Proof.
  unfold strtok. destruct (Ascii.eqb _ NUL); [now intros [= _ <- _] |].
  destruct (Ascii.eqb _ NUL); intros [= _ <- _]; [reflexivity | apply length_insert].
Qed.

Lemma tokenize_loop_length (fuel : nat) :
  forall (i : nat) (argv : list (slot nat)) (buf : list ascii) (save : nat)
         (argc : nat) (argv' : list (slot nat)) (buf' : list ascii),
    Cmd.tokenize_loop fuel i argv buf save = Ok (argc, argv', buf') ->
    length buf' = length buf.
Proof.
  induction fuel as [| fuel IH]; intros i argv buf save argc argv' buf' H; [discriminate |].
  cbn [Cmd.tokenize_loop] in H.
  destruct (strtok buf save " ") as [[tok b1] s1] eqn:Htok.
  apply strtok_length in Htok.
  destruct (store argv (S i) tok) as [a1 | f]; cbn [bind] in H; [| discriminate].
  destruct ((S i <? 30) && is_ptr tok).
  - apply IH in H. congruence.
  - injection H as _ _ <-. exact Htok.
Qed.

Lemma tokenize_length (cmd : list ascii) (argc : nat) (argv : list (slot nat))
    (buf : list ascii) :
  Cmd.tokenize cmd = Ok (argc, argv, buf) -> length buf = length cmd.
Proof.
  unfold Cmd.tokenize. destruct (strtok cmd 0 " ") as [[tok b1] s1] eqn:Htok.
  apply strtok_length in Htok.
  destruct (store _ 0 tok) as [a1 | f]; cbn [bind]; [| discriminate].
  intros H. apply tokenize_loop_length in H. congruence.
Qed.

Lemma parse_length (tbl : list Cmd.cmd_t) (cmd : list ascii) (w : World)
    (buf : list ascii) (w' : World) :
  Cmd.parse tbl cmd w = Ok (buf, w') -> length buf = length cmd.
Proof.
  unfold Cmd.parse. destruct (Cmd.tokenize cmd) as [[[argc argv] b] | f] eqn:Htok;
    cbn [bind]; [| discriminate].
  apply tokenize_length in Htok.
  destruct (Cmd.parse_table _ _ _ _) as [[w1 |] | f]; cbn [bind]; try discriminate.
  - intros [= <- _]. exact Htok.
  - destruct (read_str _ 0); cbn [bind]; [| discriminate].
    intros [= <- _]. exact Htok.
Qed.

Lemma same_globals_refl (w : World) : same_globals w w.
Proof. repeat split. Qed.

Section EditFacts.

Variable MAX_MSG_SIZE : nat.
Hypothesis size_ok : 2 <= MAX_MSG_SIZE.

(** Every character other than the return is handled without fault: the
    buffer keeps its size, the cursor stays inside, the tables stay, and only
    the port is written. *)
Lemma handler_edit (c : ascii) (st : Cmd.state) :
  buffer_ok MAX_MSG_SIZE st ->
  c <> CR ->
  exists st',
    Cmd.handler MAX_MSG_SIZE c st = Ok st' /\
    buffer_ok MAX_MSG_SIZE st' /\
    Cmd.cmd_tbl st' = Cmd.cmd_tbl st /\
    Cmd.cmd_tbl_list st' = Cmd.cmd_tbl_list st /\
    same_globals (Cmd.world st) (Cmd.world st').
Proof.
  intros [Hlen Hp] Hc. unfold Cmd.handler.
  apply Ascii.eqb_neq in Hc. rewrite Hc.
  destruct (Ascii.eqb c BS || Ascii.eqb c DEL).
  - destruct (Nat.ltb_spec 0 (Cmd.msg_ptr st)).
    + rewrite store_in by lia. cbn [bind]. eexists. split; [reflexivity |].
      unfold buffer_ok. cbn. rewrite length_insert.
      repeat split; try assumption; try lia.
    + exists st. split; [reflexivity |]. repeat split; assumption.
  - rewrite store_in by lia. cbn [bind].
    destruct (Z.eqb_spec (Z.of_nat (S (Cmd.msg_ptr st))) (Z.of_nat MAX_MSG_SIZE - 1)).
    + eexists. split; [reflexivity |]. unfold buffer_ok. cbn. rewrite length_insert.
      repeat split; try assumption; try lia.
    + eexists. split; [reflexivity |]. unfold buffer_ok. cbn. rewrite length_insert.
      repeat split; try assumption; try lia.
Qed.

Lemma handler_keeps (c : ascii) (st st' : Cmd.state) :
  buffer_ok MAX_MSG_SIZE st ->
  Cmd.handler MAX_MSG_SIZE c st = Ok st' ->
  buffer_ok MAX_MSG_SIZE st' /\
  Cmd.cmd_tbl st' = Cmd.cmd_tbl st /\
  Cmd.cmd_tbl_list st' = Cmd.cmd_tbl_list st.
Proof.
  intros Hok Hrun. destruct (Ascii.eqb_spec c CR) as [-> | Hc].
  - destruct Hok as [Hlen Hp]. unfold Cmd.handler in Hrun. cbn [Ascii.eqb CR Bool.eqb] in Hrun.
    rewrite store_in in Hrun by lia. cbn [bind] in Hrun.
    destruct (Cmd.parse _ _ _) as [[m w] | f] eqn:Hparse; cbn [bind] in Hrun; [| discriminate].
    injection Hrun as <-. apply parse_length in Hparse.
    rewrite length_insert in Hparse. unfold buffer_ok. cbn.
    repeat split; try lia.
  - destruct (handler_edit c st Hok Hc) as (st1 & H1 & H2 & H3 & H4 & _).
    rewrite H1 in Hrun. injection Hrun as <-. split; [exact H2 | split; assumption].
Qed.

(** X8. The line editor never faults: from a buffer of [MAX_MSG_SIZE >= 2]
    characters with the cursor at most two below the size, any characters
    other than the return are handled without a fault, backspaces at the
    start and overlong lines included. The bound on the cursor holds again
    afterwards, the command tables are as before, and of the globals only the
    port output changed. *)
Theorem editing_never_faults (bytes : list ascii) : forall st : Cmd.state,
  buffer_ok MAX_MSG_SIZE st ->
  Forall (fun c => c <> CR) bytes ->
  exists st',
    Cmd.poll MAX_MSG_SIZE bytes st = Ok st' /\
    buffer_ok MAX_MSG_SIZE st' /\
    Cmd.cmd_tbl st' = Cmd.cmd_tbl st /\
    Cmd.cmd_tbl_list st' = Cmd.cmd_tbl_list st /\
    same_globals (Cmd.world st) (Cmd.world st').
Proof.
  induction bytes as [| c bytes IH]; intros st Hok Hall.
  - exists st. split; [reflexivity |]. split; [exact Hok |].
    split; [reflexivity |]. split; [reflexivity | apply same_globals_refl].
  - apply Forall_cons in Hall as [Hc Hall].
    destruct (handler_edit c st Hok Hc) as (st1 & H1 & H2 & H3 & H4 & H5).
    destruct (IH st1 H2 Hall) as (st2 & G1 & G2 & G3 & G4 & G5).
    exists st2. cbn [Cmd.poll]. rewrite H1. cbn [bind].
    split; [exact G1 |]. split; [exact G2 |].
    split; [congruence |]. split; [congruence |].
    unfold same_globals in *.
    destruct H5 as (A1 & A2 & A3 & A4 & A5 & A6).
    destruct G5 as (B1 & B2 & B3 & B4 & B5 & B6).
    repeat split; congruence.
Qed.

(** X9. From a buffer of [MAX_MSG_SIZE >= 2] characters with the cursor at
    most two below the size, whatever bytes arrive, returns and the commands
    they run included: if [poll] returns, the buffer still has
    [MAX_MSG_SIZE] characters ([parse] only overwrites characters), the
    cursor is again at most two below the size, and the command tables are
    as before. *)
Theorem poll_keeps_cursor_in_buffer (bytes : list ascii) : forall st st' : Cmd.state,
  buffer_ok MAX_MSG_SIZE st ->
  Cmd.poll MAX_MSG_SIZE bytes st = Ok st' ->
  buffer_ok MAX_MSG_SIZE st' /\
  Cmd.cmd_tbl st' = Cmd.cmd_tbl st /\
  Cmd.cmd_tbl_list st' = Cmd.cmd_tbl_list st.
Proof.
  induction bytes as [| c bytes IH]; intros st st' Hok Hrun.
  - injection Hrun as <-. split; [exact Hok | split; reflexivity].
  - cbn [Cmd.poll] in Hrun.
    destruct (Cmd.handler MAX_MSG_SIZE c st) as [st1 | f] eqn:Hc; cbn [bind] in Hrun;
      [| discriminate].
    destruct (handler_keeps c st st1 Hok Hc) as (H1 & H2 & H3).
    destruct (IH st1 st' H1 Hrun) as (H4 & H5 & H6).
    split; [exact H4 | split; congruence].
Qed.

End EditFacts.

(** X8 for the keys [a], [b] and backspace on a buffer of 60 characters. *)
Lemma editing_never_faults_witness :
  let bytes := list_ascii_of_string "ab" ++ [BS] in
  2 <= 60 /\ buffer_ok 60 (idle 60 []) /\ Forall (fun c => c <> CR) bytes /\
  exists st',
    Cmd.poll 60 bytes (idle 60 []) = Ok st' /\
    buffer_ok 60 st' /\
    Cmd.cmd_tbl st' = Cmd.cmd_tbl (idle 60 []) /\
    Cmd.cmd_tbl_list st' = Cmd.cmd_tbl_list (idle 60 []) /\
    same_globals (Cmd.world (idle 60 [])) (Cmd.world st').
Proof.
  intros bytes.
  assert (H1 : 2 <= 60) by lia.
  assert (H2 : buffer_ok 60 (idle 60 [])) by (split; [reflexivity | cbn; lia]).
  assert (H3 : Forall (fun c => c <> CR) bytes) by (repeat constructor; discriminate).
  exact (conj H1 (conj H2 (conj H3 (editing_never_faults 60 H1 bytes (idle 60 []) H2 H3)))).
Defined.

(** X9 for the keys [a] and [b] on a buffer of 60 characters. *)
Lemma poll_keeps_cursor_in_buffer_witness :
  2 <= 60 /\ buffer_ok 60 (idle 60 []) /\
  Cmd.poll 60 (list_ascii_of_string "ab") (idle 60 []) = Ok (typed_ab 60) /\
  buffer_ok 60 (typed_ab 60) /\
  Cmd.cmd_tbl (typed_ab 60) = Cmd.cmd_tbl (idle 60 []) /\
  Cmd.cmd_tbl_list (typed_ab 60) = Cmd.cmd_tbl_list (idle 60 []).
Proof.
  assert (H1 : 2 <= 60) by lia.
  assert (H2 : buffer_ok 60 (idle 60 [])) by (split; [reflexivity | cbn; lia]).
  assert (H3 : Cmd.poll 60 (list_ascii_of_string "ab") (idle 60 []) = Ok (typed_ab 60))
    by (vm_compute; reflexivity).
  exact (conj H1 (conj H2 (conj H3
    (poll_keeps_cursor_in_buffer 60 H1 (list_ascii_of_string "ab") (idle 60 []) (typed_ab 60)
       H2 H3)))).
Defined.

Lemma take_inserts {A : Type} (k l : list A) (p : nat) :
  p + length k <= length l ->
  take (p + length k) (list_inserts p k l) = take p l ++ k.
Proof.
  intros H.
  assert (Hp : length (take p l) = p) by (rewrite length_take; lia).
  rewrite <- (take_drop p l) at 1.
  rewrite <- Hp at 2. replace (length (take p l)) with (length (take p l) + 0) at 1 by lia.
  rewrite list_inserts_app_r.
  rewrite <- (take_drop (length k) (drop p l)).
  rewrite list_inserts_0_r by (rewrite length_take, length_drop; lia).
  rewrite <- Hp at 1. rewrite app_assoc.
  replace (length (take p l) + length k) with (length (take p l ++ k))
    by (rewrite length_app; reflexivity).
  apply take_app_length.
Qed.

Section TypingFacts.

Variable MAX_MSG_SIZE : nat.

(** X10. Plain characters that fit before the last two elements of the
    buffer are all stored: [poll] returns, the cursor advanced by their
    number, the buffer before the cursor is what it was followed by the
    characters typed, and each was echoed. *)
Theorem typed_characters_are_kept (bs : list ascii) (st : Cmd.state) :
  Forall plain bs ->
  length (Cmd.msg st) = MAX_MSG_SIZE ->
  Cmd.msg_ptr st + length bs < MAX_MSG_SIZE - 1 ->
  exists st',
    Cmd.poll MAX_MSG_SIZE bs st = Ok st' /\
    Cmd.msg_ptr st' = Cmd.msg_ptr st + length bs /\
    take (Cmd.msg_ptr st') (Cmd.msg st') = take (Cmd.msg_ptr st) (Cmd.msg st) ++ bs /\
    length (Cmd.msg st') = MAX_MSG_SIZE /\
    Cmd.world st' = echo bs (Cmd.world st).
Proof.
  intros Hbs Hlen Hfit. eexists. split; [apply poll_plain; assumption |].
  cbn. split; [reflexivity |]. split; [apply take_inserts; lia |].
  split; [rewrite length_inserts; exact Hlen | reflexivity].
Qed.

(** A backspace or delete with the cursor past the start. *)
Lemma backspace_step (b : ascii) (st : Cmd.state) :
  b = BS \/ b = DEL ->
  0 < Cmd.msg_ptr st ->
  Cmd.msg_ptr st < length (Cmd.msg st) ->
  Cmd.handler MAX_MSG_SIZE b st =
    Ok (Cmd.with_world
          (Cmd.with_msg st (<[Cmd.msg_ptr st := SP]> (Cmd.msg st)) (Cmd.msg_ptr st - 1))
          (print_to via_ser (Chr b) (Cmd.world st))).
Proof.
  intros Hb Hpos Hlt. unfold Cmd.handler.
  assert (Hcr : Ascii.eqb b CR = false) by (destruct Hb as [-> | ->]; reflexivity).
  assert (Hbs : Ascii.eqb b BS || Ascii.eqb b DEL = true)
    by (destruct Hb as [-> | ->]; reflexivity).
  rewrite Hcr, Hbs.
  destruct (Nat.ltb_spec 0 (Cmd.msg_ptr st)); [| lia].
  rewrite (store_in _ _ _ Hlt). reflexivity.
Qed.

(** X11. A plain character followed by a backspace or a delete: the cursor
    is back where it was, the buffer before the cursor is as it was, and both
    characters were echoed. *)
Theorem backspace_undoes_character (c b : ascii) (st : Cmd.state) :
  plain c ->
  b = BS \/ b = DEL ->
  length (Cmd.msg st) = MAX_MSG_SIZE ->
  Cmd.msg_ptr st + 1 < MAX_MSG_SIZE - 1 ->
  exists st',
    Cmd.poll MAX_MSG_SIZE [c; b] st = Ok st' /\
    Cmd.msg_ptr st' = Cmd.msg_ptr st /\
    take (Cmd.msg_ptr st) (Cmd.msg st') = take (Cmd.msg_ptr st) (Cmd.msg st) /\
    Cmd.world st' = print_to via_ser (Chr b) (print_to via_ser (Chr c) (Cmd.world st)).
Proof.
  intros Hc Hb Hlen Hfit. cbn [Cmd.poll].
  rewrite handler_plain by (try assumption; lia). cbn [bind].
  set (st1 := Cmd.with_world _ _).
  rewrite (backspace_step b st1 Hb)
    by (subst st1; cbn; rewrite ?length_insert; lia).
  cbn [bind]. eexists. split; [reflexivity |].
  subst st1. cbn. split; [lia |]. split; [| reflexivity].
  rewrite !take_insert_ge by lia. reflexivity.
Qed.

End TypingFacts.

(** X10 for the keys [a] and [b] on an empty line. *)
Lemma typed_characters_are_kept_witness :
  let bs := list_ascii_of_string "ab" in
  Forall plain bs /\ length (Cmd.msg (idle 60 [])) = 60 /\
  Cmd.msg_ptr (idle 60 []) + length bs < 60 - 1 /\
  exists st',
    Cmd.poll 60 bs (idle 60 []) = Ok st' /\
    Cmd.msg_ptr st' = Cmd.msg_ptr (idle 60 []) + length bs /\
    take (Cmd.msg_ptr st') (Cmd.msg st') =
      take (Cmd.msg_ptr (idle 60 [])) (Cmd.msg (idle 60 [])) ++ bs /\
    length (Cmd.msg st') = 60 /\
    Cmd.world st' = echo bs (Cmd.world (idle 60 [])).
Proof.
  intros bs.
  assert (H1 : Forall plain bs) by (repeat constructor; discriminate).
  assert (H2 : length (Cmd.msg (idle 60 [])) = 60) by reflexivity.
  assert (H3 : Cmd.msg_ptr (idle 60 []) + length bs < 60 - 1) by (cbn; lia).
  exact (conj H1 (conj H2 (conj H3 (typed_characters_are_kept 60 bs (idle 60 []) H1 H2 H3)))).
Defined.

(** X11 for [a] and a backspace on an empty line. *)
Lemma backspace_undoes_character_witness :
  plain "a" /\ (BS = BS \/ BS = DEL) /\ length (Cmd.msg (idle 60 [])) = 60 /\
  Cmd.msg_ptr (idle 60 []) + 1 < 60 - 1 /\
  exists st',
    Cmd.poll 60 ["a"%char; BS] (idle 60 []) = Ok st' /\
    Cmd.msg_ptr st' = Cmd.msg_ptr (idle 60 []) /\
    take (Cmd.msg_ptr (idle 60 [])) (Cmd.msg st') =
      take (Cmd.msg_ptr (idle 60 [])) (Cmd.msg (idle 60 [])) /\
    Cmd.world st' =
      print_to via_ser (Chr BS) (print_to via_ser (Chr "a") (Cmd.world (idle 60 []))).
Proof.
  assert (H1 : plain "a") by (repeat split; discriminate).
  assert (H2 : BS = BS \/ BS = DEL) by (left; reflexivity).
  assert (H3 : length (Cmd.msg (idle 60 [])) = 60) by reflexivity.
  assert (H4 : Cmd.msg_ptr (idle 60 []) + 1 < 60 - 1) by (cbn; lia).
  exact (conj H1 (conj H2 (conj H3 (conj H4
    (backspace_undoes_character 60 "a" BS (idle 60 []) H1 H2 H3 H4))))).
Defined.

Lemma split_line_terminated (l r : list ascii) :
  split_line (l ++ NUL :: r) = split_line (l ++ [NUL]).
Proof.
  induction l as [| c l IH]; [reflexivity |].
  cbn [app split_line]. now rewrite IH.
Qed.

Lemma words_terminated (l r : list ascii) : words (l ++ NUL :: r) = words (l ++ [NUL]).
Proof. unfold words. now rewrite split_line_terminated. Qed.

(** The buffer after the characters [bs] and the terminator were stored
    at its start. *)
Lemma typed_line_buffer (bs m : list ascii) :
  length bs < length m ->
  <[length bs := NUL]> (list_inserts 0 bs m) = bs ++ NUL :: drop (S (length bs)) m.
Proof.
  intros H. rewrite <- (take_drop (length bs) m) at 1.
  rewrite list_inserts_0_r by (rewrite length_take; lia).
  replace (length bs) with (length bs + 0) at 1 by lia.
  rewrite insert_app_r. f_equal.
  destruct (drop (length bs) m) as [| x m'] eqn:Hd.
  - apply (f_equal length) in Hd. rewrite length_drop in Hd. cbn in Hd. lia.
  - cbn [insert list_insert]. f_equal.
    replace (S (length bs)) with (length bs + 1) by lia.
    rewrite <- drop_drop, Hd. reflexivity.
Qed.

Section LineFacts.

Variable MAX_MSG_SIZE : nat.

(** X12. A command line from the first key to the prompt: with the cursor
    at the buffer start, plain characters whose words are a registered name
    and at most 28 arguments, followed by a return, are echoed, CR LF is
    printed, the function of the first entry with that name runs with the
    words as [argv], and when it returns the prompt is shown, the cursor is
    back at the start and the buffer has kept its length. *)
Theorem typed_command_runs_handler (bs : list ascii) (t : string) (args : list string)
    (e : Cmd.cmd_t) (st : Cmd.state) :
  Forall plain bs ->
  length (Cmd.msg st) = MAX_MSG_SIZE ->
  Cmd.msg_ptr st = 0 ->
  length bs < MAX_MSG_SIZE - 1 ->
  words (bs ++ [NUL]) = t :: args ->
  length args <= 28 ->
  find (fun e => String.eqb t (Cmd.cmd e)) (Cmd.cmd_tbl st) = Some e ->
  exists buf : list ascii,
    length buf = MAX_MSG_SIZE /\
    Cmd.poll MAX_MSG_SIZE (bs ++ [CR]) st =
      bind (Cmd.func e (Z.of_nat (S (length args)))
              (Ptr t :: map Ptr args ++ Null :: replicate (28 - length args) Uninit)
              (print_to via_ser (Str (String CR (String LF EmptyString)))
                 (echo bs (Cmd.world st))))
        (fun w' =>
           Ok {| Cmd.msg := buf; Cmd.msg_ptr := 0;
                 Cmd.cmd_tbl_list := Cmd.cmd_tbl_list st;
                 Cmd.cmd_tbl := Cmd.cmd_tbl st;
                 Cmd.world := Cmd.display_prompt w' |}).
Proof.
  intros Hbs Hlen Hp Hfit Hw Hn Hfind.
  set (line := bs ++ NUL :: drop (S (length bs)) (Cmd.msg st)).
  assert (Hwl : words line = t :: args) by (unfold line; now rewrite words_terminated).
  destruct (tokenize_words_ok line) as (argv & buf & Htok & Hbl & Hargv);
    [rewrite Hwl; cbn; lia |].
  rewrite Hwl in Htok, Hargv. cbn [length map app] in Htok, Hargv.
  replace (29 - S (length args)) with (28 - length args) in Hargv by lia.
  exists buf. split.
  { rewrite Hbl. unfold line. rewrite length_app. cbn [length]. rewrite length_drop. lia. }
  rewrite poll_app, poll_plain by (try assumption; lia). cbn [bind Cmd.poll].
  unfold Cmd.handler. cbn [Ascii.eqb CR Bool.eqb].
  cbn [Cmd.with_world Cmd.with_msg Cmd.msg Cmd.msg_ptr Cmd.world Cmd.cmd_tbl Cmd.cmd_tbl_list].
  rewrite Hp. cbn [Nat.add].
  rewrite store_in by (rewrite length_inserts; lia). cbn [bind].
  rewrite typed_line_buffer by lia. fold line.
  unfold Cmd.parse. rewrite Htok. cbn [bind]. rewrite Hargv.
  rewrite (parse_table_first_match (Cmd.cmd_tbl st) (Z.of_nat (S (length args)))
             (Ptr t :: map Ptr args ++ Null :: replicate (28 - length args) Uninit)
             t e _ eq_refl Hfind).
  destruct (Cmd.func e _ _ _); reflexivity.
Qed.

End LineFacts.

(** X12 for the keys [fox MOS] and a return, with [fox] registered. *)
Lemma typed_command_runs_handler_witness :
  let e := {| Cmd.cmd := "fox"; Cmd.func := mark "A" |} in
  let bs := list_ascii_of_string "fox MOS" in
  Forall plain bs /\ length (Cmd.msg (idle 60 [e])) = 60 /\
  Cmd.msg_ptr (idle 60 [e]) = 0 /\ length bs < 60 - 1 /\
  words (bs ++ [NUL]) = ["fox"; "MOS"]%string /\
  length ["MOS"%string] <= 28 /\
  find (fun e => String.eqb "fox" (Cmd.cmd e)) (Cmd.cmd_tbl (idle 60 [e])) = Some e /\
  exists buf : list ascii,
    length buf = 60 /\
    Cmd.poll 60 (bs ++ [CR]) (idle 60 [e]) =
      bind (Cmd.func e (Z.of_nat (S (length ["MOS"%string])))
              (Ptr "fox"%string :: map Ptr ["MOS"%string] ++ Null
                 :: replicate (28 - length ["MOS"%string]) Uninit)
              (print_to via_ser (Str (String CR (String LF EmptyString)))
                 (echo bs (Cmd.world (idle 60 [e])))))
        (fun w' =>
           Ok {| Cmd.msg := buf; Cmd.msg_ptr := 0;
                 Cmd.cmd_tbl_list := Cmd.cmd_tbl_list (idle 60 [e]);
                 Cmd.cmd_tbl := Cmd.cmd_tbl (idle 60 [e]);
                 Cmd.world := Cmd.display_prompt w' |}).
Proof.
  intros e bs.
  assert (H1 : Forall plain bs) by (repeat constructor; discriminate).
  assert (H2 : length (Cmd.msg (idle 60 [e])) = 60) by reflexivity.
  assert (H3 : Cmd.msg_ptr (idle 60 [e]) = 0) by reflexivity.
  assert (H4 : length bs < 60 - 1) by (cbn; lia).
  assert (H5 : words (bs ++ [NUL]) = ["fox"; "MOS"]%string) by reflexivity.
  assert (H6 : length ["MOS"%string] <= 28) by (cbn; lia).
  assert (H7 : find (fun e => String.eqb "fox" (Cmd.cmd e)) (Cmd.cmd_tbl (idle 60 [e])) = Some e)
    by reflexivity.
  exact (conj H1 (conj H2 (conj H3 (conj H4 (conj H5 (conj H6 (conj H7
    (typed_command_runs_handler 60 bs "fox" ["MOS"%string] e (idle 60 [e])
       H1 H2 H3 H4 H5 H6 H7)))))))).
Defined.

Lemma short_buffer_words (cmd : list ascii) :
  String.length (c_str cmd) <= 58 -> length (words cmd) <= 29.
Proof.
  intros Hshort. destruct (Nat.le_gt_cases (length (words cmd)) 29) as [H | H]; [exact H |].
  destruct (tokenize_short_line cmd Hshort) as (argc & argv & buf & Hok & _).
  rewrite tokenize_many in Hok by lia. discriminate.
Qed.

(** X4. With a message buffer of at most 60 characters and the cursor where
    [handler] keeps it, at most two below the size, the line that a return
    terminates has at most 29 words; tokenizing it returns with [argc]
    between 1 and 29, [argv] still of 30 slots and the buffer length kept.
    The overrun of [argv] is then out of reach of the serial line. *)
Theorem short_buffer_never_overruns (size : nat) (st : Cmd.state) :
  2 <= size <= 60 ->
  buffer_ok size st ->
  length (words (<[Cmd.msg_ptr st := NUL]> (Cmd.msg st))) <= 29 /\
  exists (argc : nat) (argv : list (slot nat)) (buf : list ascii),
    Cmd.tokenize (<[Cmd.msg_ptr st := NUL]> (Cmd.msg st)) = Ok (argc, argv, buf) /\
    1 <= argc <= 29 /\ length argv = 30 /\ length buf = size.
Proof.
  intros Hsize [Hlen Hp].
  assert (Hshort : String.length (c_str (<[Cmd.msg_ptr st := NUL]> (Cmd.msg st))) <= 58).
  { pose proof (buf_len_terminated (Cmd.msg st) (Cmd.msg_ptr st)) as H.
    unfold buf_len in H. lia. }
  split; [apply short_buffer_words; exact Hshort |].
  destruct (tokenize_cases (<[Cmd.msg_ptr st := NUL]> (Cmd.msg st)))
    as [Hbad | (argc & argv & buf & Hok & Hargc & Hargv)].
  - destruct (tokenize_short_line _ Hshort) as (argc & argv & buf & Hok & _).
    rewrite Hbad in Hok. discriminate.
  - exists argc, argv, buf. split; [exact Hok |]. split; [exact Hargc |].
    split; [exact Hargv |].
    apply tokenize_length in Hok. rewrite length_insert in Hok. lia.
Qed.

(** X4 for a buffer of 60 characters after [ab] was typed. *)
Lemma short_buffer_never_overruns_witness :
  2 <= 60 <= 60 /\ buffer_ok 60 (typed_ab 60) /\
  length (words (<[Cmd.msg_ptr (typed_ab 60) := NUL]> (Cmd.msg (typed_ab 60)))) <= 29.
Proof.
  assert (H1 : 2 <= 60 <= 60) by lia.
  assert (H2 : buffer_ok 60 (typed_ab 60)) by (split; [reflexivity | cbn; lia]).
  exact (conj H1 (conj H2 (proj1 (short_buffer_never_overruns 60 (typed_ab 60) H1 H2)))).
Defined.

(** * Registration *)

(** X7. A name registered twice: the line with that name runs the function
    registered last, with [argc = 1], and nothing of the one registered
    first, which stays in the table out of reach. *)
Theorem later_registration_shadows (a : string) (f1 f2 : Cmd.func_t)
    (st : Cmd.state) (rest : list ascii) (w : World) :
  is_token a = true ->
  Cmd.parse (Cmd.cmd_tbl (Cmd.add a f2 (Cmd.add a f1 st))) (line_of a rest) w =
    bind (f2 1%Z (Ptr a :: Null :: replicate 28 Uninit) w)
      (fun w' => Ok (line_of a rest, Cmd.display_prompt w')).
Proof.
  intros Ha. unfold Cmd.parse. rewrite (tokenize_single a rest Ha). cbn [bind].
  assert (Hargv : map (Cmd.arg_str (line_of a rest)) (Ptr 0 :: Null :: replicate 28 Uninit)
                  = Ptr a :: Null :: replicate 28 Uninit).
  { cbn [map Cmd.arg_str replicate]. rewrite drop_0.
    destruct a as [| c a]; [discriminate |]. cbn [is_token] in Ha.
    now rewrite (c_str_token _ rest Ha). }
  rewrite Hargv. change (Z.of_nat 1) with 1%Z.
  assert (Hfind : find (fun e => String.eqb a (Cmd.cmd e))
                    (Cmd.cmd_tbl (Cmd.add a f2 (Cmd.add a f1 st)))
                  = Some {| Cmd.cmd := a; Cmd.func := f2 |}).
  { cbn. rewrite String.eqb_refl. reflexivity. }
  rewrite (parse_table_first_match _ 1%Z (Ptr a :: Null :: replicate 28 Uninit)
             a _ w eq_refl Hfind).
  cbn [Cmd.func]. destruct (f2 _ _ w); reflexivity.
Qed.

(** X7 for [fox] registered twice. *)
Lemma later_registration_shadows_witness :
  is_token "fox" = true /\
  Cmd.parse (Cmd.cmd_tbl (Cmd.add "fox" (mark "B") (Cmd.add "fox" (mark "A") (idle 60 []))))
      (line_of "fox" []) sample_world =
    bind (mark "B" 1%Z (Ptr "fox"%string :: Null :: replicate 28 Uninit) sample_world)
      (fun w' => Ok (line_of "fox" [], Cmd.display_prompt w')).
Proof.
  assert (H : is_token "fox" = true) by reflexivity.
  exact (conj H (later_registration_shadows "fox" (mark "A") (mark "B") (idle 60 []) []
                   sample_world H)).
Defined.

(** The table that [RegisterCommands] builds, most recent entry first. *)
Lemma registered_table (fox_len call_len First_RF_Pin Second_RF_Pin max_words : Z)
    (DATE TIME : string) (get_mode_str : synth -> string)
    (PrintStatus : World -> outcome World) (st : Cmd.state) :
  Cmd.cmd_tbl
    (RegisterCommands fox_len call_len First_RF_Pin Second_RF_Pin max_words
       DATE TIME get_mode_str PrintStatus st) =
  [ {| Cmd.cmd := "off"; Cmd.func := CmdOff First_RF_Pin Second_RF_Pin |};
    {| Cmd.cmd := "default"; Cmd.func := CmdDefault max_words |};
    {| Cmd.cmd := "bufsize"; Cmd.func := CmdBufsize |};
    {| Cmd.cmd := "mode"; Cmd.func := CmdMode get_mode_str |};
    {| Cmd.cmd := "freq"; Cmd.func := CmdFreq |};
    {| Cmd.cmd := "ph3"; Cmd.func := CmdPhaseHD3 |};
    {| Cmd.cmd := "ampl3"; Cmd.func := CmdAmplHD3 |};
    {| Cmd.cmd := "ampl"; Cmd.func := CmdAmpl |};
    {| Cmd.cmd := "dither"; Cmd.func := CmdDither |};
    {| Cmd.cmd := "call"; Cmd.func := CmdCall call_len |};
    {| Cmd.cmd := "fox"; Cmd.func := CmdFox fox_len |};
    {| Cmd.cmd := "rate"; Cmd.func := CmdMorseRate |};
    {| Cmd.cmd := "keydown"; Cmd.func := CmdKeyDown |};
    {| Cmd.cmd := "stat"; Cmd.func := CmdPrintStatus PrintStatus |};
    {| Cmd.cmd := "help"; Cmd.func := CmdPrintHelp DATE TIME |};
    {| Cmd.cmd := "?"; Cmd.func := CmdPrintHelp DATE TIME |} ]
  ++ Cmd.cmd_tbl_list st.
Proof. reflexivity. Qed.

(** X21. After [begin], [RegisterCommands] leaves a table of exactly 16
    entries. The name of each is a word that can be typed, and the search of
    [parse] for that name ends at this entry: no command of the sketch hides
    another. *)
Theorem registered_commands_are_reachable
    (fox_len call_len First_RF_Pin Second_RF_Pin max_words : Z) (DATE TIME : string)
    (get_mode_str : synth -> string) (PrintStatus : World -> outcome World)
    (st0 st : Cmd.state) (e : Cmd.cmd_t) :
  Cmd.begin false st0 = Ok st ->
  let tbl :=
    Cmd.cmd_tbl
      (RegisterCommands fox_len call_len First_RF_Pin Second_RF_Pin max_words
         DATE TIME get_mode_str PrintStatus st) in
  In e tbl ->
  length tbl = 16 /\
  is_token (Cmd.cmd e) = true /\
  find (fun e' => String.eqb (Cmd.cmd e) (Cmd.cmd e')) tbl = Some e.
Proof.
  intros Hbegin tbl. subst tbl. rewrite registered_table.
  injection Hbegin as <-. cbn [Cmd.cmd_tbl_list]. rewrite app_nil_r.
  intros Hin. split; [reflexivity |].
  repeat (destruct Hin as [<- | Hin]; [split; reflexivity |]).
  destruct Hin.
Qed.

(** X21 for the entry of [fox]. *)
Lemma registered_commands_are_reachable_witness :
  let PrintStatus := fun w : World => Ok w in
  let st :=
    {| Cmd.msg := Cmd.msg (idle 60 []); Cmd.msg_ptr := 0; Cmd.cmd_tbl_list := [];
       Cmd.cmd_tbl := Cmd.cmd_tbl (idle 60 []); Cmd.world := Cmd.world (idle 60 []) |} in
  let tbl :=
    Cmd.cmd_tbl
      (RegisterCommands 4 7 0 1 1000 "" "" (fun _ => EmptyString) PrintStatus st) in
  let e := {| Cmd.cmd := "fox"; Cmd.func := CmdFox 4 |} in
  Cmd.begin false (idle 60 []) = Ok st /\
  In e tbl /\
  find (fun e' => String.eqb "fox" (Cmd.cmd e')) tbl = Some e.
Proof.
  intros PrintStatus st tbl e.
  assert (H1 : Cmd.begin false (idle 60 []) = Ok st) by reflexivity.
  assert (H2 : In e tbl) by (do 10 right; left; reflexivity).
  exact (conj H1 (conj H2
    (proj2 (proj2 (registered_commands_are_reachable 4 7 0 1 1000 "" ""
                     (fun _ => EmptyString) PrintStatus (idle 60 []) st e H1 H2))))).
Defined.

(** * Fox string and callsign *)

Lemma c_str_c_chars (str : string) (tail : list ascii) :
  c_str (c_chars str ++ NUL :: tail) = string_of_list_ascii (c_chars str).
Proof.
  induction str as [| c str IH]; [reflexivity |].
  cbn [c_chars]. destruct (Ascii.eqb c NUL) eqn:E; [reflexivity |].
  cbn [app c_str string_of_list_ascii]. now rewrite E, IH.
Qed.

Lemma c_chars_token (a : string) :
  token_chars a = true -> string_of_list_ascii (c_chars a) = a.
Proof.
  induction a as [| c a IH]; [reflexivity |]. cbn [token_chars c_chars].
  intros H. apply andb_prop in H as [H Ha]. apply andb_prop in H as [_ Hn].
  apply negb_true_iff in Hn. rewrite Hn. cbn. now rewrite IH.
Qed.

(** The array after a source that fits was copied and the last element was
    terminated. *)
Lemma copied_array (str : string) (dst : list ascii) (n : nat) :
  strlen str < n ->
  length dst = n ->
  exists tail : list ascii,
    <[n - 1 := NUL]> (list_inserts 0 (c_chars str ++ [NUL]) dst) =
      c_chars str ++ NUL :: tail.
Proof.
  intros Hs Hn.
  assert (Hk : length (c_chars str) = strlen str) by apply length_c_chars.
  rewrite list_inserts_app_l. cbn [list_inserts]. rewrite Nat.add_0_r.
  rewrite typed_line_buffer by lia.
  rewrite insert_app_r_alt by lia.
  destruct (n - 1 - length (c_chars str)) as [| j]; cbn; eauto.
Qed.

(** X13. [FoxCopy] and [CallCopy] with a source shorter than the array: the
    copy returns, the array then reads as the source (its characters up to
    the first NUL), has kept its length and ends with a NUL. *)
Theorem short_string_is_copied (fox_len call_len : Z) (str : string) (w : World) :
  length (fox_string w) = Z.to_nat fox_len ->
  length (callsign w) = Z.to_nat call_len ->
  strlen str < Z.to_nat fox_len ->
  strlen str < Z.to_nat call_len ->
  (exists a : list ascii,
     FoxCopy fox_len str w = Ok (set_fox_string a w) /\
     c_str a = string_of_list_ascii (c_chars str) /\
     length a = length (fox_string w) /\
     a !! (Z.to_nat fox_len - 1) = Some NUL) /\
  (exists a : list ascii,
     CallCopy call_len str w = Ok (set_callsign a w) /\
     c_str a = string_of_list_ascii (c_chars str) /\
     length a = length (callsign w) /\
     a !! (Z.to_nat call_len - 1) = Some NUL).
Proof.
  intros Hf Hc Hsf Hsc. split.
  - destruct (FoxCopy_fits fox_len str w Hf Hsf) as (a & Hrun & Ha & Hl & Hlast).
    exists a. split; [exact Hrun |]. split; [| split; [congruence | exact Hlast]].
    destruct (copied_array str (fox_string w) (Z.to_nat fox_len) Hsf Hf) as [tail Ht].
    rewrite Ha, Ht. apply c_str_c_chars.
  - destruct (CallCopy_fits call_len str w Hc Hsc) as (a & Hrun & Ha & Hl & Hlast).
    exists a. split; [exact Hrun |]. split; [| split; [congruence | exact Hlast]].
    destruct (copied_array str (callsign w) (Z.to_nat call_len) Hsc Hc) as [tail Ht].
    rewrite Ha, Ht. apply c_str_c_chars.
Qed.

(** X13 for the source [MO] and arrays of 4 and 7 characters. *)
Lemma short_string_is_copied_witness :
  length (fox_string sample_world) = Z.to_nat 4 /\
  length (callsign sample_world) = Z.to_nat 7 /\
  strlen "MO" < Z.to_nat 4 /\ strlen "MO" < Z.to_nat 7 /\
  (exists a : list ascii,
     FoxCopy 4 "MO" sample_world = Ok (set_fox_string a sample_world) /\
     c_str a = string_of_list_ascii (c_chars "MO") /\
     length a = length (fox_string sample_world) /\
     a !! (Z.to_nat 4 - 1) = Some NUL) /\
  (exists a : list ascii,
     CallCopy 7 "MO" sample_world = Ok (set_callsign a sample_world) /\
     c_str a = string_of_list_ascii (c_chars "MO") /\
     length a = length (callsign sample_world) /\
     a !! (Z.to_nat 7 - 1) = Some NUL).
Proof.
  assert (H1 : length (fox_string sample_world) = Z.to_nat 4) by reflexivity.
  assert (H2 : length (callsign sample_world) = Z.to_nat 7) by reflexivity.
  assert (H3 : strlen "MO" < Z.to_nat 4) by (vm_compute; lia).
  assert (H4 : strlen "MO" < Z.to_nat 7) by (vm_compute; lia).
  exact (conj H1 (conj H2 (conj H3 (conj H4
    (short_string_is_copied 4 7 "MO" sample_world H1 H2 H3 H4))))).
Defined.

Lemma FoxCopy_reads_back (fox_len : Z) (str : string) (w : World) :
  length (fox_string w) = Z.to_nat fox_len ->
  strlen str < Z.to_nat fox_len ->
  exists a : list ascii,
    FoxCopy fox_len str w = Ok (set_fox_string a w) /\
    c_str a = string_of_list_ascii (c_chars str).
Proof.
  intros Hf Hs. destruct (FoxCopy_fits fox_len str w Hf Hs) as (a & Hrun & Ha & _).
  exists a. split; [exact Hrun |].
  destruct (copied_array str (fox_string w) (Z.to_nat fox_len) Hs Hf) as [tail Ht].
  rewrite Ha, Ht. apply c_str_c_chars.
Qed.


(** X14. [fox n] with a single digit [n] from 0 to 7, the fox string having
    room for four characters: the fox string becomes the [n]-th of MO, MOE,
    MOI, MOS, MOH, MO5, MON, MOD. *)
Theorem fox_number_selects_identifier (fox_len : Z) (n : nat)
    (argv : list (slot string)) (w : World) :
  n <= 7 ->
  (4 <= fox_len)%Z ->
  length (fox_string w) = Z.to_nat fox_len ->
  argv !! 1 = Some (Ptr (digit_string n)) ->
  exists a : list ascii,
    CmdFox fox_len 2 argv w = Ok (set_fox_string a w) /\
    c_str a = nth n fox_identifiers EmptyString.
Proof.
  intros Hn Hlen Hf H1.
  assert (Hrun : CmdFox fox_len 2 argv w = FoxCopy fox_len (nth n fox_identifiers EmptyString) w).
  { unfold CmdFox, read_str. rewrite H1.
    do 8 (destruct n as [| n]; [reflexivity |]). lia. }
  rewrite Hrun.
  assert (Hs : strlen (nth n fox_identifiers EmptyString) < Z.to_nat fox_len).
  { do 8 (destruct n as [| n]; [cbn; lia |]). lia. }
  destruct (FoxCopy_reads_back fox_len _ w Hf Hs) as (a & Ha & Hc).
  exists a. split; [exact Ha |]. rewrite Hc.
  do 8 (destruct n as [| n]; [reflexivity |]). lia.
Qed.

(** X14 for [fox 3]: the fox string becomes MOS. *)
Lemma fox_number_selects_identifier_witness :
  let argv := [Ptr "fox"; Ptr "3"; Null]%string in
  3 <= 7 /\ (4 <= 4)%Z /\ length (fox_string sample_world) = Z.to_nat 4 /\
  argv !! 1 = Some (Ptr (digit_string 3)) /\
  exists a : list ascii,
    CmdFox 4 2 argv sample_world = Ok (set_fox_string a sample_world) /\
    c_str a = nth 3 fox_identifiers EmptyString.
Proof.
  intros argv.
  assert (H1 : 3 <= 7) by lia.
  assert (H2 : (4 <= 4)%Z) by lia.
  assert (H3 : length (fox_string sample_world) = Z.to_nat 4) by reflexivity.
  assert (H4 : argv !! 1 = Some (Ptr (digit_string 3))) by reflexivity.
  exact (conj H1 (conj H2 (conj H3 (conj H4
    (fox_number_selects_identifier 4 3 argv sample_world H1 H2 H3 H4))))).
Defined.

(** X15. [fox str] where the word [str] is not a single digit from 0 to 7
    and is shorter than the array: the fox string becomes [str] itself; so do
    the digits 8 and 9 and numbers of several digits. *)
Theorem fox_string_is_stored (fox_len : Z) (a1 : string)
    (argv : list (slot string)) (w : World) :
  is_token a1 = true ->
  nat_of_ascii (char_at a1 0) < 48 \/ 55 < nat_of_ascii (char_at a1 0) \/ 2 <= strlen a1 ->
  strlen a1 < Z.to_nat fox_len ->
  length (fox_string w) = Z.to_nat fox_len ->
  argv !! 1 = Some (Ptr a1) ->
  exists a : list ascii,
    CmdFox fox_len 2 argv w = Ok (set_fox_string a w) /\
    c_str a = a1.
Proof.
  intros Ht Hnot Hs Hf H1.
  assert (Hrun : CmdFox fox_len 2 argv w = FoxCopy fox_len a1 w).
  { unfold CmdFox, read_str. rewrite H1.
    change ((2 =? 1)%Z) with false. change ((2 >? 2)%Z) with false. cbn [bind].
    change (nat_of_ascii "0") with 48. change (nat_of_ascii "7") with 55.
    destruct (Nat.leb_spec 48 (nat_of_ascii (char_at a1 0))); cbn [andb]; [| reflexivity].
    destruct (Nat.leb_spec (nat_of_ascii (char_at a1 0)) 55); cbn [andb]; [| reflexivity].
    destruct (Nat.eqb_spec (strlen a1) 1); [lia | reflexivity]. }
  rewrite Hrun.
  destruct (FoxCopy_reads_back fox_len a1 w Hf Hs) as (a & Ha & Hc).
  exists a. split; [exact Ha |]. rewrite Hc. apply c_chars_token.
  destruct a1; [discriminate | exact Ht].
Qed.

(** X15 for [fox MOS]. *)
Lemma fox_string_is_stored_witness :
  let argv := [Ptr "fox"; Ptr "MOS"; Null]%string in
  is_token "MOS" = true /\
  (nat_of_ascii (char_at "MOS" 0) < 48 \/ 55 < nat_of_ascii (char_at "MOS" 0)
   \/ 2 <= strlen "MOS") /\
  strlen "MOS" < Z.to_nat 4 /\
  length (fox_string sample_world) = Z.to_nat 4 /\
  argv !! 1 = Some (Ptr "MOS"%string) /\
  exists a : list ascii,
    CmdFox 4 2 argv sample_world = Ok (set_fox_string a sample_world) /\
    c_str a = "MOS"%string.
Proof.
  intros argv.
  assert (H1 : is_token "MOS" = true) by reflexivity.
  assert (H2 : nat_of_ascii (char_at "MOS" 0) < 48 \/ 55 < nat_of_ascii (char_at "MOS" 0)
               \/ 2 <= strlen "MOS") by (right; left; vm_compute; lia).
  assert (H3 : strlen "MOS" < Z.to_nat 4) by (vm_compute; lia).
  assert (H4 : length (fox_string sample_world) = Z.to_nat 4) by reflexivity.
  assert (H5 : argv !! 1 = Some (Ptr "MOS"%string)) by reflexivity.
  exact (conj H1 (conj H2 (conj H3 (conj H4 (conj H5
    (fox_string_is_stored 4 "MOS" argv sample_world H1 H2 H3 H4 H5)))))).
Defined.



(** * Arguments of the handlers *)

(** X17. The handlers that take an optional value ([keydown], [fox],
    [call], [dither], [ampl], [ampl3], [ph3], [freq], [mode], [bufsize]),
    called with more than one argument, print the argument count error for
    one expected argument with the number received, and do nothing else. *)
Theorem optional_value_arity_is_checked (fox_len call_len : Z)
    (get_mode_str : synth -> string) (argc : Z) (argv : list (slot string))
    (name : string) (w : World) :
  argv !! 0 = Some (Ptr name) ->
  (2 < argc <= INT_MAX)%Z ->
  let report := Ok (only_printed (arg_count_message name 1 (argc - 1)) w) in
  CmdKeyDown argc argv w = report /\
  CmdFox fox_len argc argv w = report /\
  CmdCall call_len argc argv w = report /\
  CmdDither argc argv w = report /\
  CmdAmpl argc argv w = report /\
  CmdAmplHD3 argc argv w = report /\
  CmdPhaseHD3 argc argv w = report /\
  CmdFreq argc argv w = report /\
  CmdMode get_mode_str argc argv w = report /\
  CmdBufsize argc argv w = report.
Proof.
  intros H0 Hargc report.
  assert (Hp : PrintNumArgError argc argv 2 w = report).
  { apply (PrintNumArgError_prints argc argv name 2 w H0); unfold INT_MIN, INT_MAX in *; lia. }
  unfold CmdKeyDown, CmdFox, CmdCall, CmdDither, CmdAmpl, CmdAmplHD3, CmdPhaseHD3,
    CmdFreq, CmdMode, CmdBufsize.
  destruct (Z.eqb_spec argc 1) as [E | _]; [lia |].
  destruct (Z.eqb_spec argc 2) as [E | _]; [lia |].
  destruct (Z.gtb_spec argc 2) as [_ | E]; [| lia].
  cbn [negb]. rewrite Hp. repeat split.
Qed.

(** X17 for [ampl 1 2]. *)
Lemma optional_value_arity_is_checked_witness :
  let argv := [Ptr "ampl"; Ptr "1"; Ptr "2"; Null]%string in
  argv !! 0 = Some (Ptr "ampl"%string) /\
  (2 < 3 <= INT_MAX)%Z /\
  CmdAmpl 3 argv sample_world =
    Ok (only_printed (arg_count_message "ampl" 1 (3 - 1)) sample_world).
Proof.
  intros argv.
  assert (H1 : argv !! 0 = Some (Ptr "ampl"%string)) by reflexivity.
  assert (H2 : (2 < 3 <= INT_MAX)%Z) by (unfold INT_MAX; lia).
  exact (conj H1 (conj H2
    (proj1 (proj2 (proj2 (proj2 (proj2
       (optional_value_arity_is_checked 4 7 (fun _ => EmptyString) 3 argv "ampl"
          sample_world H1 H2)))))))).
Defined.

Lemma Str2Num_letter (c : ascii) (s : string) :
  letter c = true -> Str2Num (String c s) 10 = Ok 0%Z.
Proof.
  destruct c as [[] [] [] [] [] [] [] []]; intros H; try discriminate H; reflexivity.
Qed.

(** X18. An argument that starts with a letter is the number 0 to
    [Str2Num]. [rate] and [bufsize] then print their range message and
    change nothing, but [mode] sets mode 0 and applies it, and [off] restores
    the output pins as for [off 0]. *)
Theorem word_argument_counts_as_zero (First_RF_Pin Second_RF_Pin : Z)
    (get_mode_str : synth -> string) (c : ascii) (s : string)
    (argv : list (slot string)) (w : World) :
  letter c = true ->
  argv !! 1 = Some (Ptr (String c s)) ->
  CmdMorseRate 2 argv w = Ok (Serial_print (Str "Morse rate must be between 5 and 100") w) /\
  CmdBufsize 2 argv w = Ok (Serial_print (Str "Bufsize must be between 2 and 10000") w) /\
  CmdMode get_mode_str 2 argv w = Ok (on_synth apply_settings (on_synth (set_mode 0) w)) /\
  CmdOff First_RF_Pin Second_RF_Pin 2 argv w = Ok (on_synth restore_out_pins w).
Proof.
  intros Hc H1.
  unfold CmdMorseRate, CmdBufsize, CmdMode, CmdOff, read_str.
  rewrite H1. cbn [bind Z.eqb Pos.eqb negb].
  rewrite (Str2Num_letter c s Hc). repeat split.
Qed.

(** X18 for [mode x], which selects mode 0. *)
Lemma word_argument_counts_as_zero_witness :
  let argv := [Ptr "mode"; Ptr "x"; Null]%string in
  letter "x" = true /\
  argv !! 1 = Some (Ptr (String "x" EmptyString)) /\
  CmdMode (fun _ => EmptyString) 2 argv sample_world =
    Ok (on_synth apply_settings (on_synth (set_mode 0) sample_world)).
Proof.
  intros argv.
  assert (H1 : letter "x" = true) by reflexivity.
  assert (H2 : argv !! 1 = Some (Ptr (String "x" EmptyString))) by reflexivity.
  exact (conj H1 (conj H2
    (proj1 (proj2 (proj2
       (word_argument_counts_as_zero 0 1 (fun _ => EmptyString) "x" EmptyString argv
          sample_world H1 H2)))))).
Defined.




(** * Values passed to the signal generator *)











Section ConsoleFacts.

Variables (fox_len call_len First_RF_Pin Second_RF_Pin max_words : Z).
Variables (DATE TIME : string).
Variable get_mode_str : synth -> string.
Variable PrintStatus : World -> outcome World.

(** What [PrintStatus] is taken to do: it prints, the signal generator is
    only read. *)
Hypothesis PrintStatus_reads :
  forall w w' : World, PrintStatus w = Ok w' -> rf_synth w' = rf_synth w.

















End ConsoleFacts.






